(** * neocore_client.py: protocol codec and session layer

    A shallow embedding of [NeocoreClient] (src/neocore_client.py): the
    command encoder [send_command], the notification handler
    [handle_notification], the response decoder [parse_response] and the
    EEG frame decoder [parse_eeg_packet].

    Python values are modelled as follows.
    - [int] is [Z] (unbounded, two's complement bit operations);
    - [bytes] / [bytearray] is [list byte];
    - [str] is the list of its Unicode code points;
    - an exception is the [Raise] outcome of a computation;
    - [self] and the standard output / GATT writes are threaded through a
      small state-and-exception monad [M]. *)

From Stdlib Require Import ZArith List Lia Bool.
From coqutil Require Import Byte Word.LittleEndianList.
Import ListNotations.
Local Open Scope Z_scope.

(** ** Python values *)

Definition bytes := list byte.

(** A [str] as the sequence of its code points. *)
Definition str := list Z.

Inductive exn : Set :=
| RuntimeError
| OverflowError
| UnicodeDecodeError
| IndexError
| UnicodeEncodeError
| BleakError.

Definition exn_eqb (a b : exn) : bool :=
  match a, b with
  | RuntimeError, RuntimeError
  | OverflowError, OverflowError
  | UnicodeDecodeError, UnicodeDecodeError
  | IndexError, IndexError
  | UnicodeEncodeError, UnicodeEncodeError
  | BleakError, BleakError => true
  | _, _ => false
  end.

Inductive result (A : Type) : Type :=
| Ok (a : A)
| Raise (e : exn).
Arguments Ok {A} a.
Arguments Raise {A} e.

(** [data[i]] for a literal index [i >= 0]: the byte as an [int], or
    [IndexError] past the end of the buffer. *)
Definition getitem (data : bytes) (i : nat) : result Z :=
  match nth_error data i with
  | Some b => Ok (byte.unsigned b)
  | None => Raise IndexError
  end.

(** [data[lo:hi]] for [0 <= lo <= hi]; a slice is clamped to the buffer. *)
Definition slice (data : bytes) (lo hi : nat) : bytes :=
  firstn (hi - lo) (skipn lo data).

(** [data[lo:]]. *)
Definition slice_from (data : bytes) (lo : nat) : bytes := skipn lo data.

(** Truth value of a [bytes] object: non-empty. *)
Definition truthy (data : bytes) : bool :=
  match data with [] => false | _ :: _ => true end.

(** [n.to_bytes(2, "big")]: [OverflowError] on a negative [n] and on an
    [n] that does not fit 16 bits. *)
Definition to_bytes_2_big (n : Z) : result bytes :=
  if n <? 0 then Raise OverflowError
  else if 2 ^ 16 <=? n then Raise OverflowError
  else Ok [byte.of_Z (Z.shiftr n 8); byte.of_Z n].

(** [int.from_bytes(bs, "little")]. *)
Definition from_bytes_little (bs : bytes) : Z := le_combine bs.

(** [int.from_bytes(bs, "little", signed=True)]: two's complement on
    [8 * len(bs)] bits. *)
Definition from_bytes_little_signed (bs : bytes) : Z :=
  let n := le_combine bs in
  let bits := 8 * Z.of_nat (length bs) in
  if (0 <? bits) && (2 ^ (bits - 1) <=? n) then n - 2 ^ bits else n.

(** [range(0, stop, 8)]. *)
Definition range_0_8 (stop : nat) : list nat :=
  map (fun k => (8 * k)%nat) (seq 0 ((stop + 7) / 8)).

(** *** [bytes.hex()] *)

Definition hex_digit (d : Z) : Z :=
  if d <? 10 then 48 + d else 87 + d.

Definition hex_byte (b : byte) : str :=
  [hex_digit (Z.shiftr (byte.unsigned b) 4);
   hex_digit (Z.land (byte.unsigned b) 15)].

Definition hex (bs : bytes) : str := flat_map hex_byte bs.

(** *** [bytes.decode()]: strict UTF-8

    Shortest form only, no surrogates (U+D800..U+DFFF), nothing above
    U+10FFFF; any other byte sequence raises [UnicodeDecodeError]. *)

Definition is_cont (b : Z) : bool := (128 <=? b) && (b <=? 191).
Definition in_range (lo hi b : Z) : bool := (lo <=? b) && (b <=? hi).
Definition cont_bits (b : Z) : Z := Z.land b 63.

Fixpoint utf8_decode (bs : bytes) : option str :=
  match bs with
  | [] => Some []
  | c0 :: t0 =>
    let b0 := byte.unsigned c0 in
    if b0 <=? 127 then option_map (cons b0) (utf8_decode t0)
    else match t0 with
    | [] => None
    | c1 :: t1 =>
      let b1 := byte.unsigned c1 in
      if in_range 194 223 b0 then
        if is_cont b1
        then option_map
               (cons (Z.lor (Z.shiftl (Z.land b0 31) 6) (cont_bits b1)))
               (utf8_decode t1)
        else None
      else match t1 with
      | [] => None
      | c2 :: t2 =>
        let b2 := byte.unsigned c2 in
        if in_range 224 239 b0 then
          if (if b0 =? 224 then in_range 160 191 b1
              else if b0 =? 237 then in_range 128 159 b1
              else is_cont b1) && is_cont b2
          then option_map
                 (cons (Z.lor (Z.shiftl (Z.land b0 15) 12)
                          (Z.lor (Z.shiftl (cont_bits b1) 6) (cont_bits b2))))
                 (utf8_decode t2)
          else None
        else match t2 with
        | [] => None
        | c3 :: t3 =>
          let b3 := byte.unsigned c3 in
          if in_range 240 244 b0 then
            if (if b0 =? 240 then in_range 144 191 b1
                else if b0 =? 244 then in_range 128 143 b1
                else is_cont b1) && is_cont b2 && is_cont b3
            then option_map
                   (cons (Z.lor (Z.shiftl (Z.land b0 7) 18)
                            (Z.lor (Z.shiftl (cont_bits b1) 12)
                               (Z.lor (Z.shiftl (cont_bits b2) 6)
                                  (cont_bits b3)))))
                   (utf8_decode t3)
            else None
          else None
        end
      end
    end
  end.

Definition decode (bs : bytes) : result str :=
  match utf8_decode bs with
  | Some s => Ok s
  | None => Raise UnicodeDecodeError
  end.

(** ** The client object and its observable effects *)

Record EEGPacket : Set := {
  index : Z;
  ch1 : list Z;
  ch2 : list Z
}.

(** The lines the client prints, with the values they are formatted from. *)
Inductive line : Type :=
| LSending (cmd_id : Z) (payload_hex : str)
| LResponse (feature_id pdu_type pdu_id : Z) (payload_hex : str)
| LSerial (serial : option str)
| LBattery (level : option Z)
| LEEG (idx : Z) (n1 n2 : nat).

(** What the outside sees: a printed line, or a write to the GATT write
    characteristic of the connected device. *)
Inductive event : Type :=
| Print (l : line)
| WriteGatt (payload : bytes).

(** [self.client] is the BLE connection handle; only its presence matters
    to the codec. *)
Record BleakClient : Set := { is_connected : bool }.

Record NeocoreClient : Type := {
  client : option BleakClient;
  serial_number : option str;
  battery_level : option Z
}.

Record world : Type := {
  self : NeocoreClient;
  trace : list event
}.

Module Consts.
Definition CORE_FEATURE : Z := 0.
Definition SENSOR_CFG_FEATURE : Z := 1.
Definition SENSOR_STREAM_FEATURE : Z := 2.
Definition BATTERY_FEATURE : Z := 3.

Definition PDU_COMMAND : Z := 0.
Definition PDU_NOTIFICATION : Z := 1.
Definition PDU_RESPONSE : Z := 2.
Definition PDU_ERROR : Z := 3.

Definition CMD_GET_SERIAL : Z := 1.
Definition CMD_GET_BATTERY : Z := 0.
Definition CMD_STREAM_CTRL : Z := 0.
Definition CMD_TEST_SIGNAL_CTRL : Z := 1.

Definition EEG_PACKET_TYPE : Z := 4.
End Consts.
Import Consts.

(** ** State and exception monad *)

Definition M (A : Type) : Type := world -> result A * world.

Definition ret {A} (a : A) : M A := fun w => (Ok a, w).

Definition bind {A B} (m : M A) (k : A -> M B) : M B :=
  fun w =>
    match m w with
    | (Ok a, w') => k a w'
    | (Raise e, w') => (Raise e, w')
    end.

Definition raise {A} (e : exn) : M A := fun w => (Raise e, w).

Definition lift {A} (r : result A) : M A := fun w => (r, w).

(** [try: m  except e: h].  Effects of [m] before the exception stay. *)
Definition try_except {A} (m : M A) (e : exn) (h : M A) : M A :=
  fun w =>
    match m w with
    | (Raise e', w') => if exn_eqb e' e then h w' else (Raise e', w')
    | r => r
    end.

Declare Scope monad_scope.
Delimit Scope monad_scope with monad.
Notation "x <- m ;; k" := (bind m (fun x => k))
  (at level 61, m at next level, right associativity) : monad_scope.
Notation "m ;; k" := (bind m (fun _ => k))
  (at level 61, right associativity) : monad_scope.
Local Open Scope monad_scope.

(** [emit] records an effect that went through.  [print] is a [print]
    call on a standard output that can encode the line, and
    [emit (WriteGatt _)] a write that the device acknowledged; the methods
    right below are the client in an environment where both always hold.
    [print_in] and [write_gatt_char_in], further down, are the two calls
    in an arbitrary environment, with the methods that depend on it. *)
Definition emit (e : event) : M unit :=
  fun w => (Ok tt, {| self := self w; trace := trace w ++ [e] |}).

Definition print (l : line) : M unit := emit (Print l).

Definition get_self : M NeocoreClient := fun w => (Ok (self w), w).

Definition set_serial_number (s : option str) : M unit :=
  fun w =>
    (Ok tt,
     {| self := {| client := client (self w);
                   serial_number := s;
                   battery_level := battery_level (self w) |};
        trace := trace w |}).

Definition set_battery_level (b : option Z) : M unit :=
  fun w =>
    (Ok tt,
     {| self := {| client := client (self w);
                   serial_number := serial_number (self w);
                   battery_level := b |};
        trace := trace w |}).

(** ** The client's methods *)

(** [send_command] (lines 74-80).  [write_gatt_char] belongs to the
    transport; the bytes handed to it are recorded in the trace. *)
Definition send_command (feature_id pdu_type pdu_id : Z) (data : bytes)
  : M unit :=
  me <- get_self;;
  match client me with
  | None => raise RuntimeError
  | Some _ =>
    let cmd_id :=
      Z.lor (Z.lor (Z.shiftl feature_id 9) (Z.shiftl pdu_type 7)) pdu_id in
    hdr <- lift (to_bytes_2_big cmd_id);;
    let payload := hdr ++ data in
    print (LSending cmd_id (hex payload));;
    emit (WriteGatt payload)
  end.

(** [parse_response] (lines 104-122). *)
Definition parse_response (data : bytes) : M unit :=
  if (length data <? 2)%nat then ret tt
  else
    d0 <- lift (getitem data 0);;
    d1 <- lift (getitem data 1);;
    let command_id := Z.lor (Z.shiftl d0 8) d1 in
    let feature_id := Z.shiftr command_id 9 in
    let pdu_type := Z.land (Z.shiftr command_id 7) 3 in
    let pdu_id := Z.land command_id 127 in
    let payload := slice_from data 2 in
    print (LResponse feature_id pdu_type pdu_id (hex payload));;
    if pdu_type =? PDU_RESPONSE then
      (if (feature_id =? CORE_FEATURE) && (pdu_id =? CMD_GET_SERIAL) then
         try_except
           (s <- lift (decode payload);; set_serial_number (Some s))
           UnicodeDecodeError
           (set_serial_number (Some (hex payload)));;
         me <- get_self;;
         print (LSerial (serial_number me))
       else ret tt);;
      (if (feature_id =? BATTERY_FEATURE) && (pdu_id =? CMD_GET_BATTERY)
          && truthy payload then
         b <- lift (getitem payload 0);;
         set_battery_level (Some b);;
         me <- get_self;;
         print (LBattery (battery_level me))
       else ret tt)
    else ret tt.

(** Body of the loop of [parse_eeg_packet] (lines 133-135), on the lists
    accumulated so far. *)
Definition eeg_step (payload : bytes) (acc : list Z * list Z) (i : nat)
  : list Z * list Z :=
  if (i + 8 <=? length payload)%nat then
    (fst acc ++ [from_bytes_little_signed (slice payload i (i + 4))],
     snd acc ++ [from_bytes_little_signed (slice payload (i + 4) (i + 8))])
  else acc.

(** [parse_eeg_packet] (lines 124-136): [None] for a frame under 4
    bytes, else the packet. *)
Definition parse_eeg_packet (data : bytes) : result (option EEGPacket) :=
  if (length data <? 4)%nat then Ok None
  else
    match getitem data 1 with
    | Raise e => Raise e
    | Ok length_field =>
      let index := from_bytes_little (slice data 2 4) in
      let payload := slice_from data 4 in
      let chans :=
        fold_left (eeg_step payload) (range_0_8 (length payload)) ([], []) in
      Ok (Some {| index := index; ch1 := fst chans; ch2 := snd chans |})
    end.

(** [handle_notification] (lines 93-102).  An [EEGPacket] instance is
    always true, so [if pkt:] tests for [None]. *)
Definition handle_notification (sender : Z) (data : bytes) : M unit :=
  if negb (truthy data) then ret tt
  else
    packet_type <- lift (getitem data 0);;
    if packet_type =? EEG_PACKET_TYPE then
      pkt <- lift (parse_eeg_packet data);;
      match pkt with
      | Some p =>
        print (LEEG (index p) (length (ch1 p)) (length (ch2 p)))
      | None => ret tt
      end
    else parse_response data.

(** ** The client in an arbitrary environment

    What the client does not control: which characters [sys.stdout] can
    encode, and whether a write to the device is acknowledged. *)
Record env : Type := {
  (** can standard output encode this code point above 127 *)
  stdout_encodes : Z -> bool;
  (** is this write acknowledged, after what has happened so far *)
  gatt_acks : list event -> bytes -> bool
}.

(** The part of a printed line that is not ASCII by construction: the
    serial number.  Format strings, integers, [None] and hexadecimal
    digits are ASCII. *)
Definition line_text (l : line) : str :=
  match l with
  | LSerial (Some s) => s
  | _ => []
  end.

Definition printable (E : env) (l : line) : bool :=
  forallb (fun c => (c <=? 127) || stdout_encodes E c) (line_text l).

(** [print(...)]: [UnicodeEncodeError] when standard output cannot
    encode the line.  Such a line is not recorded; what had already been
    buffered of it is not part of the model. *)
Definition print_in (E : env) (l : line) : M unit :=
  if printable E l then print l else raise UnicodeEncodeError.

(** [await self.client.write_gatt_char(...)]: the write is recorded when
    acknowledged and raises otherwise; [BleakError] stands for whichever
    exception the transport raises. *)
Definition write_gatt_char_in (E : env) (payload : bytes) : M unit :=
  fun w =>
    if gatt_acks E (trace w) payload then emit (WriteGatt payload) w
    else (Raise BleakError, w).

(** [send_command] (lines 74-80). *)
Definition send_command_in (E : env)
           (feature_id pdu_type pdu_id : Z) (data : bytes) : M unit :=
  me <- get_self;;
  match client me with
  | None => raise RuntimeError
  | Some _ =>
    let cmd_id :=
      Z.lor (Z.lor (Z.shiftl feature_id 9) (Z.shiftl pdu_type 7)) pdu_id in
    hdr <- lift (to_bytes_2_big cmd_id);;
    let payload := hdr ++ data in
    print_in E (LSending cmd_id (hex payload));;
    write_gatt_char_in E payload
  end.

(** [parse_response] (lines 104-122). *)
Definition parse_response_in (E : env) (data : bytes) : M unit :=
  if (length data <? 2)%nat then ret tt
  else
    d0 <- lift (getitem data 0);;
    d1 <- lift (getitem data 1);;
    let command_id := Z.lor (Z.shiftl d0 8) d1 in
    let feature_id := Z.shiftr command_id 9 in
    let pdu_type := Z.land (Z.shiftr command_id 7) 3 in
    let pdu_id := Z.land command_id 127 in
    let payload := slice_from data 2 in
    print_in E (LResponse feature_id pdu_type pdu_id (hex payload));;
    if pdu_type =? PDU_RESPONSE then
      (if (feature_id =? CORE_FEATURE) && (pdu_id =? CMD_GET_SERIAL) then
         try_except
           (s <- lift (decode payload);; set_serial_number (Some s))
           UnicodeDecodeError
           (set_serial_number (Some (hex payload)));;
         me <- get_self;;
         print_in E (LSerial (serial_number me))
       else ret tt);;
      (if (feature_id =? BATTERY_FEATURE) && (pdu_id =? CMD_GET_BATTERY)
          && truthy payload then
         b <- lift (getitem payload 0);;
         set_battery_level (Some b);;
         me <- get_self;;
         print_in E (LBattery (battery_level me))
       else ret tt)
    else ret tt.

(** [handle_notification] (lines 93-102). *)
Definition handle_notification_in (E : env) (sender : Z) (data : bytes)
  : M unit :=
  if negb (truthy data) then ret tt
  else
    packet_type <- lift (getitem data 0);;
    if packet_type =? EEG_PACKET_TYPE then
      pkt <- lift (parse_eeg_packet data);;
      match pkt with
      | Some p =>
        print_in E (LEEG (index p) (length (ch1 p)) (length (ch2 p)))
      | None => ret tt
      end
    else parse_response_in E data.

(** A UTF-8 standard output and a link that acknowledges every write. *)
Definition ideal_env : env :=
  {| stdout_encodes := fun _ => true; gatt_acks := fun _ _ => true |}.

(** An ASCII standard output (as under the C locale). *)
Definition ascii_stdout_env : env :=
  {| stdout_encodes := fun _ => false; gatt_acks := fun _ _ => true |}.

(** ** Views used to state the properties *)

(** The value [cmd_id] of [send_command] (line 77). *)
Definition header_word (feature_id pdu_type pdu_id : Z) : Z :=
  Z.lor (Z.lor (Z.shiftl feature_id 9) (Z.shiftl pdu_type 7)) pdu_id.

(** The triple [(feature_id, pdu_type, pdu_id)] that [parse_response]
    computes from the first two bytes of a frame (lines 107-110); [None]
    for a frame it drops. *)
Definition header (data : bytes) : option (Z * Z * Z) :=
  match data with
  | b0 :: b1 :: _ =>
    let command_id :=
      Z.lor (Z.shiftl (byte.unsigned b0) 8) (byte.unsigned b1) in
    Some (Z.shiftr command_id 9,
          Z.land (Z.shiftr command_id 7) 3,
          Z.land command_id 127)
  | _ => None
  end.

(** The payloads written to the device, oldest first. *)
Definition written (tr : list event) : list bytes :=
  flat_map (fun e => match e with WriteGatt p => [p] | Print _ => [] end) tr.

(** The EEG packet as section 4.4 of the specification words it: the
    index is bytes 2 and 3, little-endian; sample [k] of channel 1 is the
    four bytes at frame offset [4 + 8k], sample [k] of channel 2 the four
    bytes after them; there are [(len - 4) / 8] samples per channel. *)
Definition sample_at (frame : bytes) (off : nat) : Z :=
  from_bytes_little_signed (slice frame off (off + 4)).

Definition decode_eeg_spec (frame : bytes) : EEGPacket :=
  let n := ((length frame - 4) / 8)%nat in
  {| index := byte.unsigned (nth 2 frame Byte.x00)
              + 256 * byte.unsigned (nth 3 frame Byte.x00);
     ch1 := map (fun k => sample_at frame (4 + 8 * k)) (seq 0 n);
     ch2 := map (fun k => sample_at frame (4 + 8 * k + 4)) (seq 0 n) |}.

(** ** The rest of the client *)

(** [asyncio.sleep]: time is not part of the model, a sleep only lets
    the call go on. *)
Definition sleep : M unit := ret tt.

(** [start_streaming] (lines 82-86). *)
Definition start_streaming (use_test_signal : bool) : M unit :=
  (if use_test_signal then
     send_command SENSOR_CFG_FEATURE PDU_COMMAND CMD_TEST_SIGNAL_CTRL
       [Byte.x01];;
     sleep
   else ret tt);;
  send_command SENSOR_CFG_FEATURE PDU_COMMAND CMD_STREAM_CTRL [Byte.x01].

(** [stop_streaming] (lines 88-90). *)
Definition stop_streaming : M unit :=
  send_command SENSOR_CFG_FEATURE PDU_COMMAND CMD_STREAM_CTRL [Byte.x00];;
  send_command SENSOR_CFG_FEATURE PDU_COMMAND CMD_TEST_SIGNAL_CTRL
    [Byte.x00].

(** The two requests that close [scan_and_connect] (lines 63-67). *)
Definition scan_and_connect_requests : M unit :=
  sleep;;
  send_command CORE_FEATURE PDU_COMMAND CMD_GET_SERIAL [];;
  sleep;;
  send_command BATTERY_FEATURE PDU_COMMAND CMD_GET_BATTERY [].

(** *** Choice of the device in [scan_and_connect] *)

(** What the scanner reports of a device: its advertised name, if any,
    and its address. *)
Record BLEDevice : Type := {
  name : option str;
  address : str
}.

(** ["QCC5181"], ["QCC5181-LE"], ["NEOCORE"]. *)
Definition TARGET_NAMES : list str :=
  [[81; 67; 67; 53; 49; 56; 49];
   [81; 67; 67; 53; 49; 56; 49; 45; 76; 69];
   [78; 69; 79; 67; 79; 82; 69]].

(** [hay.startswith(needle)]. *)
Fixpoint str_prefix (needle hay : str) : bool :=
  match needle, hay with
  | [], _ => true
  | _ :: _, [] => false
  | a :: needle', b :: hay' => (a =? b) && str_prefix needle' hay'
  end.

(** [needle in hay] on strings: [needle] occurs as a substring. *)
Fixpoint str_in (needle hay : str) : bool :=
  str_prefix needle hay
  || match hay with
     | [] => false
     | _ :: hay' => str_in needle hay'
     end.

(** [any(name in (d.name or "") for name in self.TARGET_NAMES)]
    (line 52). *)
Definition name_matches (d : BLEDevice) : bool :=
  existsb (fun n => str_in n match name d with
                             | Some s => s
                             | None => []
                             end)
          TARGET_NAMES.

(** The loop of lines 50-54: the first device that matches, in scan
    order. *)
Fixpoint find_target (devices : list BLEDevice) : option BLEDevice :=
  match devices with
  | [] => None
  | d :: rest => if name_matches d then Some d else find_target rest
  end.

(** Lines 50-56 of [scan_and_connect], on the result of the scan. *)
Definition scan_and_connect_target (devices : list BLEDevice)
  : result BLEDevice :=
  match find_target devices with
  | Some target => Ok target
  | None => Raise RuntimeError
  end.

(** *** The EEG wire format, written

    The frame a device lays out for a packet, as [parse_eeg_packet] reads
    it: type byte, length byte, index on two bytes little-endian, then for
    each sample pair four bytes of channel 1 and four bytes of channel 2,
    little-endian two's complement. *)
Fixpoint eeg_wire_samples (xs ys : list Z) : bytes :=
  match xs, ys with
  | x :: xs', y :: ys' =>
    le_split 4 x ++ le_split 4 y ++ eeg_wire_samples xs' ys'
  | _, _ => []
  end.

Definition eeg_wire_frame (length_byte : byte) (idx : Z) (xs ys : list Z)
  : bytes :=
  [Byte.x04; length_byte] ++ le_split 2 idx ++ eeg_wire_samples xs ys.

(** The samples found [o] bytes into each complete 8-byte stride of an
    EEG payload: channel 1 at [o = 0], channel 2 at [o = 4]. *)
Definition stride_samples (o : nat) (payload : bytes) : list Z :=
  map (fun k => from_bytes_little_signed
                  (slice payload (8 * k + o) (8 * k + o + 4)))
      (seq 0 (length payload / 8)).

(** ** Sanity checks on concrete frames *)

Definition w0 : world :=
  {| self := {| client := Some {| is_connected := true |};
                serial_number := None;
                battery_level := None |};
     trace := [] |}.

Example range_0_8_17 : range_0_8 17 = [0; 8; 16]%nat.
Proof. reflexivity. Qed.

Example range_0_8_16 : range_0_8 16 = [0; 8]%nat.
Proof. reflexivity. Qed.

Example eeg_4_bytes :
  parse_eeg_packet [Byte.x04; Byte.x00; Byte.x05; Byte.x00]
  = Ok (Some {| index := 5; ch1 := []; ch2 := [] |}).
Proof. reflexivity. Qed.

Example eeg_12_bytes :
  parse_eeg_packet
    [Byte.x04; Byte.x08; Byte.x01; Byte.x00;
     Byte.x01; Byte.x00; Byte.x00; Byte.x00;
     Byte.x02; Byte.x00; Byte.x00; Byte.x00]
  = Ok (Some {| index := 1; ch1 := [1]; ch2 := [2] |}).
Proof. vm_compute. reflexivity. Qed.

Example eeg_negative_sample :
  parse_eeg_packet
    [Byte.x04; Byte.x08; Byte.xff; Byte.xff;
     Byte.xff; Byte.xff; Byte.xff; Byte.xff;
     Byte.x00; Byte.x00; Byte.x00; Byte.x80; Byte.x07]
  = Ok (Some {| index := 65535; ch1 := [-1]; ch2 := [-2147483648] |}).
Proof. vm_compute. reflexivity. Qed.

Example send_get_serial :
  send_command CORE_FEATURE PDU_COMMAND CMD_GET_SERIAL [] w0
  = (Ok tt,
     {| self := self w0;
        trace := [Print (LSending 1 [48; 48; 48; 49]);
                  WriteGatt [Byte.x00; Byte.x01]] |}).
Proof. vm_compute. reflexivity. Qed.

Example utf8_ascii :
  utf8_decode [Byte.x4e; Byte.x43; Byte.x31] = Some [78; 67; 49].
Proof. vm_compute. reflexivity. Qed.

Example utf8_euro :
  utf8_decode [Byte.xe2; Byte.x82; Byte.xac] = Some [8364].
Proof. vm_compute. reflexivity. Qed.

Example utf8_overlong : utf8_decode [Byte.xc0; Byte.x80] = None.
Proof. vm_compute. reflexivity. Qed.

Example utf8_surrogate :
  utf8_decode [Byte.xed; Byte.xa0; Byte.x80] = None.
Proof. vm_compute. reflexivity. Qed.

Example utf8_truncated : utf8_decode [Byte.xe2; Byte.x82] = None.
Proof. vm_compute. reflexivity. Qed.

Example utf8_four_bytes :
  utf8_decode [Byte.xf0; Byte.x9f; Byte.x98; Byte.x80] = Some [128512].
Proof. vm_compute. reflexivity. Qed.

Example utf8_above_max :
  utf8_decode [Byte.xf4; Byte.x90; Byte.x80; Byte.x80] = None.
Proof. vm_compute. reflexivity. Qed.

Example send_pdu_id_128 :
  written (trace (snd (send_command 0 0 128 [] w0)))
  = [[Byte.x00; Byte.x80]].
Proof. vm_compute. reflexivity. Qed.

Example hex_5aff : hex [Byte.x5a; Byte.xff] = [53; 97; 102; 102].
Proof. vm_compute. reflexivity. Qed.

(** ** Bit-packing arithmetic *)

Section Packing.

Lemma lor_shiftl_add a b n :
  0 <= n -> 0 <= b < 2 ^ n -> Z.lor (Z.shiftl a n) b = a * 2 ^ n + b.
Proof.
  intros Hn Hb. rewrite <- Z.shiftl_mul_pow2 by lia.
  assert (Hdisjoint : Z.land (Z.shiftl a n) b = 0).
  { apply Z.bits_inj'; intros i Hi.
    rewrite Z.land_spec, Z.bits_0.
    destruct (Z.lt_ge_cases i n) as [Hlt | Hge].
    - rewrite Z.shiftl_spec_low by lia. reflexivity.
    - rewrite <- (Z.mod_small b (2 ^ n)) by lia.
      rewrite Z.mod_pow2_bits_high by lia. apply andb_false_r. }
  pose proof (Z.add_lor_land (Z.shiftl a n) b). lia.
Qed.

(** With [pdu_type] and [pdu_id] inside their fields the header is the
    positional sum, whatever [feature_id] is. *)
Lemma pack_fields f t p :
  0 <= t < 4 -> 0 <= p < 128 ->
  Z.lor (Z.lor (Z.shiftl f 9) (Z.shiftl t 7)) p = f * 512 + t * 128 + p.
Proof.
  intros Ht Hp.
  rewrite <- Z.lor_assoc.
  rewrite (lor_shiftl_add t p 7) by lia.
  rewrite (lor_shiftl_add f _ 9) by lia. lia.
Qed.

(** A [feature_id] above 127 pushes the header out of 16 bits, whatever
    the other two fields are. *)
Lemma feature_overflow f t p :
  127 < f ->
  ~ (0 <= Z.lor (Z.lor (Z.shiftl f 9) (Z.shiftl t 7)) p < 2 ^ 16).
Proof.
  intros Hf [Hlo Hhi].
  assert (Hz : Z.shiftr (Z.lor (Z.lor (Z.shiftl f 9) (Z.shiftl t 7)) p) 16
               = 0).
  { rewrite Z.shiftr_div_pow2 by lia. apply Z.div_small. lia. }
  rewrite !Z.shiftr_lor in Hz.
  apply Z.lor_eq_0_iff in Hz as [Hz _].
  apply Z.lor_eq_0_iff in Hz as [Hz _].
  rewrite Z.shiftr_shiftl_r in Hz by lia.
  rewrite Z.shiftr_div_pow2 in Hz by lia.
  change (2 ^ (16 - 9)) with 128 in Hz.
  assert (1 <= f / 128) by (apply Z.div_le_lower_bound; lia).
  lia.
Qed.

(** The two header bytes of a reply, read back as [command_id]. *)
Lemma command_id_add (b0 b1 : byte) :
  Z.lor (Z.shiftl (byte.unsigned b0) 8) (byte.unsigned b1)
  = byte.unsigned b0 * 256 + byte.unsigned b1.
Proof.
  pose proof (byte.unsigned_range b1).
  apply (lor_shiftl_add _ _ 8); lia.
Qed.

Lemma land_low_bits x k : 0 <= k -> Z.land x (2 ^ k - 1) = x mod 2 ^ k.
Proof.
  intros Hk. rewrite <- Z.land_ones by lia.
  unfold Z.ones. rewrite Z.shiftl_1_l. reflexivity.
Qed.

(** The inverse formulas of [parse_response] on the bytes that
    [to_bytes_2_big] produces for an in-range triple. *)
Lemma unpack_fields f t p :
  0 <= f < 128 -> 0 <= t < 4 -> 0 <= p < 128 ->
  let c := f * 512 + t * 128 + p in
  let command_id :=
    Z.lor (Z.shiftl (byte.unsigned (byte.of_Z (Z.shiftr c 8))) 8)
          (byte.unsigned (byte.of_Z c)) in
  command_id = c /\
  Z.shiftr command_id 9 = f /\
  Z.land (Z.shiftr command_id 7) 3 = t /\
  Z.land command_id 127 = p.
Proof.
  intros Hf Ht Hp c command_id.
  assert (Hc : command_id = c).
  { unfold command_id. rewrite command_id_add, !byte.unsigned_of_Z.
    unfold byte.wrap. rewrite Z.shiftr_div_pow2 by lia.
    change (2 ^ 8) with 256.
    rewrite (Z.mod_small (c / 256)).
    - pose proof (Z.div_mod c 256). lia.
    - subst c. split.
      + apply Z.div_pos; lia.
      + apply Z.div_lt_upper_bound; lia. }
  rewrite Hc. split; [reflexivity |].
  rewrite !Z.shiftr_div_pow2 by lia.
  change 3 with (2 ^ 2 - 1). change 127 with (2 ^ 7 - 1).
  rewrite !land_low_bits by lia.
  change (2 ^ 9) with 512. change (2 ^ 7) with 128. change (2 ^ 2) with 4.
  subst c. repeat split.
  - symmetry. apply (Z.div_unique _ 512 f (t * 128 + p)); lia.
  - replace ((f * 512 + t * 128 + p) / 128) with (f * 4 + t).
    + symmetry. apply (Z.mod_unique _ 4 f t); lia.
    + apply (Z.div_unique _ 128 _ p); lia.
  - symmetry. apply (Z.mod_unique _ 128 (f * 4 + t) p); lia.
Qed.

End Packing.

(** ** Command encoder *)

Section Encoder.

Variables (feature_id pdu_type pdu_id : Z) (data : bytes) (w : world).

(** Without a connection nothing is encoded at all. *)
Lemma send_command_not_connected :
  client (self w) = None ->
  send_command feature_id pdu_type pdu_id data w = (Raise RuntimeError, w).
Proof.
  intros Hc. unfold send_command, bind, get_self. rewrite Hc. reflexivity.
Qed.

(** A header that fits 16 bits is written, followed by [data]. *)
Lemma send_command_fits :
  client (self w) <> None ->
  0 <= header_word feature_id pdu_type pdu_id < 2 ^ 16 ->
  let cmd_id := header_word feature_id pdu_type pdu_id in
  let frame := [byte.of_Z (Z.shiftr cmd_id 8); byte.of_Z cmd_id] ++ data in
  send_command feature_id pdu_type pdu_id data w
  = (Ok tt,
     {| self := self w;
        trace := (trace w ++ [Print (LSending cmd_id (hex frame))])
                 ++ [WriteGatt frame] |}).
Proof.
  intros Hc [Hlo Hhi] cmd_id frame. subst frame.
  unfold send_command, bind, get_self.
  destruct (client (self w)) as [c |]; [| congruence].
  fold (header_word feature_id pdu_type pdu_id). fold cmd_id.
  unfold lift, to_bytes_2_big.
  destruct (Z.ltb_spec cmd_id 0); [lia |].
  destruct (Z.leb_spec (2 ^ 16) cmd_id); [lia |].
  reflexivity.
Qed.

(** A header outside 16 bits stops the call in [to_bytes]. *)
Lemma send_command_overflows :
  client (self w) <> None ->
  ~ (0 <= header_word feature_id pdu_type pdu_id < 2 ^ 16) ->
  send_command feature_id pdu_type pdu_id data w = (Raise OverflowError, w).
Proof.
  intros Hc Hr. unfold send_command, bind, get_self.
  destruct (client (self w)) as [c |]; [| congruence].
  fold (header_word feature_id pdu_type pdu_id).
  unfold lift, to_bytes_2_big.
  destruct (Z.ltb_spec (header_word feature_id pdu_type pdu_id) 0);
    [reflexivity |].
  destruct (Z.leb_spec (2 ^ 16) (header_word feature_id pdu_type pdu_id));
    [reflexivity | lia].
Qed.

End Encoder.

(** What a call whose header fits leaves behind: one more write. *)
Lemma send_command_range_fits
      (feature_id pdu_type pdu_id : Z) (data : bytes) (w : world) :
  client (self w) <> None ->
  0 <= header_word feature_id pdu_type pdu_id < 2 ^ 16 ->
  fst (send_command feature_id pdu_type pdu_id data w) = Ok tt
  /\ written (trace (snd (send_command feature_id pdu_type pdu_id data w)))
     = written (trace w)
       ++ [[byte.of_Z (Z.shiftr (header_word feature_id pdu_type pdu_id) 8);
            byte.of_Z (header_word feature_id pdu_type pdu_id)]
           ++ data].
Proof.
  intros Hc Hfit.
  pose proof (send_command_fits feature_id pdu_type pdu_id data w Hc Hfit)
    as Hok.
  cbv zeta in Hok. rewrite Hok. split; [reflexivity |].
  cbn [snd trace]. unfold written. rewrite !flat_map_app. cbn.
  rewrite app_nil_r. reflexivity.
Qed.

(** C1 (as amended).  On a connected client the encoder checks no field:
    the call fails, with [OverflowError] and nothing printed or written,
    exactly when the packed header is outside [0, 65535].  That is the
    case for every [feature_id] above 127; a [pdu_type] above 3 or a
    [pdu_id] above 127 whose header still fits is encoded, its high bits
    landing in the neighbouring field. *)
Theorem send_command_range_behaviour :
  forall (feature_id pdu_type pdu_id : Z) (data : bytes) (w : world),
    client (self w) <> None ->
    (127 < feature_id ->
     send_command feature_id pdu_type pdu_id data w
     = (Raise OverflowError, w))
    /\ (send_command feature_id pdu_type pdu_id data w
        = (Raise OverflowError, w)
        <-> ~ (0 <= header_word feature_id pdu_type pdu_id < 2 ^ 16))
    /\ (0 <= header_word feature_id pdu_type pdu_id < 2 ^ 16 ->
        fst (send_command feature_id pdu_type pdu_id data w) = Ok tt
        /\ written (trace (snd (send_command feature_id pdu_type pdu_id
                                   data w)))
           = written (trace w)
             ++ [[byte.of_Z
                    (Z.shiftr (header_word feature_id pdu_type pdu_id) 8);
                  byte.of_Z (header_word feature_id pdu_type pdu_id)]
                 ++ data]).
Proof.
  intros f t p data w Hc. repeat split.
  - intros Hf. apply send_command_overflows; [exact Hc |].
    apply feature_overflow. exact Hf.
  - intros Hraise Hfit.
    pose proof (send_command_fits f t p data w Hc Hfit) as Hok.
    cbv zeta in Hok. rewrite Hok in Hraise. discriminate.
  - apply send_command_overflows. exact Hc.
  - apply (send_command_range_fits f t p data w Hc H).
  - apply (send_command_range_fits f t p data w Hc H).
Qed.

Lemma send_command_range_behaviour_witness :
  send_command 128 0 0 [] w0 = (Raise OverflowError, w0)
  /\ fst (send_command 3 0 0 [Byte.x01] w0) = Ok tt
  /\ written (trace (snd (send_command 3 0 0 [Byte.x01] w0)))
     = [[Byte.x06; Byte.x00; Byte.x01]].
Proof.
  assert (Hc : client (self w0) <> None) by (cbn; discriminate).
  split.
  - destruct (send_command_range_behaviour 128 0 0 [] w0 Hc) as [H _].
    apply H. reflexivity.
  - destruct (send_command_range_behaviour 3 0 0 [Byte.x01] w0 Hc)
      as [_ [_ H]].
    apply H. vm_compute. split; [discriminate | reflexivity].
Defined.

(** C1 (as stated) fails: [pdu_type = 4] is out of range, yet the call
    succeeds and the bytes written are those of
    [(feature_id, pdu_type, pdu_id) = (1, 0, 0)]. *)
Lemma send_command_pdu_type_not_checked :
  3 < 4
  /\ send_command 0 4 0 [] w0
     = (Ok tt,
        {| self := self w0;
           trace := [Print (LSending 512 [48; 50; 48; 48]);
                     WriteGatt [Byte.x02; Byte.x00]] |})
  /\ send_command 0 4 0 [] w0 = send_command 1 0 0 [] w0.
Proof. split; [lia | split; vm_compute; reflexivity]. Qed.

(** ** Response decoder *)

(** Adding a printed line to the trace. *)
Lemma print_run (l : line) (w : world) :
  print l w = (Ok tt, {| self := self w; trace := trace w ++ [Print l] |}).
Proof. reflexivity. Qed.

Section Response.

Variables (b0 b1 : byte) (payload : bytes).
Variables (f t p : Z).
Hypothesis Hhdr : header (b0 :: b1 :: payload) = Some (f, t, p).

(** After the length test and the two header reads, which cannot fail on
    a frame of two bytes or more, [parse_response] runs on the decoded
    triple. *)
Lemma parse_response_header (w : world) :
  parse_response (b0 :: b1 :: payload) w
  = (print (LResponse f t p (hex payload));;
     if t =? PDU_RESPONSE then
       (if (f =? CORE_FEATURE) && (p =? CMD_GET_SERIAL) then
          try_except
            (s <- lift (decode payload);; set_serial_number (Some s))
            UnicodeDecodeError
            (set_serial_number (Some (hex payload)));;
          me <- get_self;;
          print (LSerial (serial_number me))
        else ret tt);;
       (if (f =? BATTERY_FEATURE) && (p =? CMD_GET_BATTERY)
           && truthy payload then
          b <- lift (getitem payload 0);;
          set_battery_level (Some b);;
          me <- get_self;;
          print (LBattery (battery_level me))
        else ret tt)
     else ret tt) w.
Proof.
  unfold header in Hhdr. cbv zeta in Hhdr.
  assert (Hf : Z.shiftr (Z.lor (Z.shiftl (byte.unsigned b0) 8)
                           (byte.unsigned b1)) 9 = f) by congruence.
  assert (Ht : Z.land (Z.shiftr (Z.lor (Z.shiftl (byte.unsigned b0) 8)
                                   (byte.unsigned b1)) 7) 3 = t)
    by congruence.
  assert (Hp : Z.land (Z.lor (Z.shiftl (byte.unsigned b0) 8)
                         (byte.unsigned b1)) 127 = p) by congruence.
  unfold parse_response. cbn [length Nat.ltb Nat.leb].
  unfold getitem at 1 2. cbn [nth_error].
  unfold bind at 1, lift at 1. unfold bind at 1, lift at 1.
  cbv zeta. unfold slice_from. cbn [skipn].
  rewrite Hf, Ht, Hp. reflexivity.
Qed.

Lemma parse_response_other_type (w : world) :
  t <> PDU_RESPONSE ->
  parse_response (b0 :: b1 :: payload) w
  = (Ok tt, {| self := self w; trace := trace w ++ [Print (LResponse f t p (hex payload))] |}).
Proof.
  intros Ht. rewrite parse_response_header.
  apply Z.eqb_neq in Ht. unfold bind. rewrite print_run, Ht. reflexivity.
Qed.

Lemma parse_response_unmatched (w : world) :
  (f, p) <> (CORE_FEATURE, CMD_GET_SERIAL) ->
  (f, p) <> (BATTERY_FEATURE, CMD_GET_BATTERY) ->
  parse_response (b0 :: b1 :: payload) w
  = (Ok tt, {| self := self w; trace := trace w ++ [Print (LResponse f t p (hex payload))] |}).
Proof.
  intros Hs Hb. rewrite parse_response_header.
  unfold bind at 1. rewrite print_run.
  destruct (t =? PDU_RESPONSE); [| reflexivity].
  assert (Es : (f =? CORE_FEATURE) && (p =? CMD_GET_SERIAL) = false).
  { apply andb_false_iff.
    destruct (Z.eqb_spec f CORE_FEATURE); [| now left].
    destruct (Z.eqb_spec p CMD_GET_SERIAL); [| now right].
    subst. contradiction. }
  assert (Eb : (f =? BATTERY_FEATURE) && (p =? CMD_GET_BATTERY) = false).
  { apply andb_false_iff.
    destruct (Z.eqb_spec f BATTERY_FEATURE); [| now left].
    destruct (Z.eqb_spec p CMD_GET_BATTERY); [| now right].
    subst. contradiction. }
  rewrite Es, Eb. reflexivity.
Qed.

End Response.

(** The text stored for a serial payload: its UTF-8 decoding or, when
    there is none, its hexadecimal form. *)
Lemma serial_assignment (payload : bytes) (w : world) :
  try_except
    (s <- lift (decode payload);; set_serial_number (Some s))
    UnicodeDecodeError
    (set_serial_number (Some (hex payload))) w
  = set_serial_number
      (Some match utf8_decode payload with
            | Some text => text
            | None => hex payload
            end) w.
Proof.
  unfold try_except, bind, lift, decode.
  destruct (utf8_decode payload); reflexivity.
Qed.

Lemma parse_response_serial (b0 b1 : byte) (payload : bytes) (w : world) :
  header (b0 :: b1 :: payload)
  = Some (CORE_FEATURE, PDU_RESPONSE, CMD_GET_SERIAL) ->
  let text := match utf8_decode payload with
              | Some text => text
              | None => hex payload
              end in
  parse_response (b0 :: b1 :: payload) w
  = (Ok tt,
     {| self := {| client := client (self w);
                   serial_number := Some text;
                   battery_level := battery_level (self w) |};
        trace := (trace w
                  ++ [Print (LResponse CORE_FEATURE PDU_RESPONSE
                               CMD_GET_SERIAL (hex payload))])
                 ++ [Print (LSerial (Some text))] |}).
Proof.
  intros Hhdr text. rewrite (parse_response_header _ _ _ _ _ _ Hhdr).
  unfold bind at 1. rewrite print_run.
  change (PDU_RESPONSE =? PDU_RESPONSE) with true.
  change ((CORE_FEATURE =? CORE_FEATURE)
          && (CMD_GET_SERIAL =? CMD_GET_SERIAL)) with true.
  change ((CORE_FEATURE =? BATTERY_FEATURE)
          && (CMD_GET_SERIAL =? CMD_GET_BATTERY) && truthy payload)
    with false.
  cbv iota. unfold bind at 1. unfold bind at 1.
  rewrite serial_assignment. reflexivity.
Qed.

Lemma parse_response_battery
      (b0 b1 b : byte) (more : bytes) (w : world) :
  header (b0 :: b1 :: b :: more)
  = Some (BATTERY_FEATURE, PDU_RESPONSE, CMD_GET_BATTERY) ->
  parse_response (b0 :: b1 :: b :: more) w
  = (Ok tt,
     {| self := {| client := client (self w);
                   serial_number := serial_number (self w);
                   battery_level := Some (byte.unsigned b) |};
        trace := (trace w
                  ++ [Print (LResponse BATTERY_FEATURE PDU_RESPONSE
                               CMD_GET_BATTERY (hex (b :: more)))])
                 ++ [Print (LBattery (Some (byte.unsigned b)))] |}).
Proof.
  intros Hhdr. rewrite (parse_response_header _ _ _ _ _ _ Hhdr).
  reflexivity.
Qed.

Lemma parse_response_battery_empty (b0 b1 : byte) (w : world) :
  header [b0; b1] = Some (BATTERY_FEATURE, PDU_RESPONSE, CMD_GET_BATTERY) ->
  parse_response [b0; b1] w
  = (Ok tt,
     {| self := self w;
        trace := trace w
                 ++ [Print (LResponse BATTERY_FEATURE PDU_RESPONSE
                              CMD_GET_BATTERY [])] |}).
Proof.
  intros Hhdr. rewrite (parse_response_header _ _ _ _ _ _ Hhdr).
  reflexivity.
Qed.

Lemma parse_response_short (data : bytes) (w : world) :
  (length data < 2)%nat -> parse_response data w = (Ok tt, w).
Proof.
  intros Hlen. unfold parse_response.
  destruct (Nat.ltb_spec (length data) 2); [reflexivity | lia].
Qed.

(** A frame of two bytes or more has a header. *)
Lemma header_some (data : bytes) :
  (2 <= length data)%nat ->
  exists b0 b1 payload f t p,
    data = b0 :: b1 :: payload /\ header data = Some (f, t, p).
Proof.
  destruct data as [| b0 [| b1 payload]]; cbn [length]; try lia.
  intros _. unfold header. cbv zeta.
  repeat eexists.
Qed.

(** The first header byte is [2 * feature_id + pdu_type / 2]. *)
Lemma header_first_byte (b0 b1 : byte) (payload : bytes) (f t p : Z) :
  header (b0 :: b1 :: payload) = Some (f, t, p) ->
  byte.unsigned b0 = 2 * f + t / 2
  /\ byte.unsigned b1 = 128 * (t mod 2) + p
  /\ 0 <= f < 128 /\ 0 <= t < 4 /\ 0 <= p < 128.
Proof.
  intros Hhdr. unfold header in Hhdr. cbv zeta in Hhdr.
  rewrite command_id_add in Hhdr.
  rewrite !Z.shiftr_div_pow2 in Hhdr by lia.
  change 3 with (2 ^ 2 - 1) in Hhdr. change 127 with (2 ^ 7 - 1) in Hhdr.
  rewrite !land_low_bits in Hhdr by lia.
  change (2 ^ 9) with 512 in Hhdr. change (2 ^ 7) with 128 in Hhdr.
  change (2 ^ 2) with 4 in Hhdr.
  pose proof (byte.unsigned_range b0) as R0.
  pose proof (byte.unsigned_range b1) as R1.
  change (2 ^ 8) with 256 in R0, R1.
  assert (Hf : (byte.unsigned b0 * 256 + byte.unsigned b1) / 512 = f)
    by congruence.
  assert (Ht : ((byte.unsigned b0 * 256 + byte.unsigned b1) / 128) mod 4 = t)
    by congruence.
  assert (Hp : (byte.unsigned b0 * 256 + byte.unsigned b1) mod 128 = p)
    by congruence.
  clear Hhdr. Z.div_mod_to_equations. lia.
Qed.

(** ** EEG frame decoder *)

Section EEGLoop.

Variable payload : bytes.

Lemma eeg_step_complete (acc : list Z * list Z) (i : nat) :
  (i + 8 <= length payload)%nat ->
  eeg_step payload acc i
  = (fst acc ++ [from_bytes_little_signed (slice payload i (i + 4))],
     snd acc ++ [from_bytes_little_signed (slice payload (i + 4) (i + 8))]).
Proof.
  intros Hle. unfold eeg_step.
  destruct (Nat.leb_spec (i + 8) (length payload)); [reflexivity | lia].
Qed.

Lemma eeg_step_partial (acc : list Z * list Z) (i : nat) :
  (length payload < i + 8)%nat -> eeg_step payload acc i = acc.
Proof.
  intros Hlt. unfold eeg_step.
  destruct (Nat.leb_spec (i + 8) (length payload)); [lia | reflexivity].
Qed.

(** Over complete strides the loop appends one sample to each channel. *)
Lemma eeg_fold_complete (ks : list nat) (acc : list Z * list Z) :
  (forall k, In k ks -> (8 * k + 8 <= length payload)%nat) ->
  fold_left (eeg_step payload) (map (fun k => (8 * k)%nat) ks) acc
  = (fst acc
     ++ map (fun k => from_bytes_little_signed
                        (slice payload (8 * k) (8 * k + 4))) ks,
     snd acc
     ++ map (fun k => from_bytes_little_signed
                        (slice payload (8 * k + 4) (8 * k + 8))) ks).
Proof.
  revert acc. induction ks as [| k ks IH]; intros acc Hin.
  - cbn. rewrite !app_nil_r. destruct acc; reflexivity.
  - cbn [map fold_left].
    rewrite eeg_step_complete by (apply Hin; now left).
    rewrite IH by (intros; apply Hin; now right).
    cbn [fst snd]. rewrite <- !app_assoc. reflexivity.
Qed.

(** Over a start offset whose stride is cut short the loop does nothing. *)
Lemma eeg_fold_partial (ks : list nat) (acc : list Z * list Z) :
  (forall k, In k ks -> (length payload < 8 * k + 8)%nat) ->
  fold_left (eeg_step payload) (map (fun k => (8 * k)%nat) ks) acc = acc.
Proof.
  revert acc. induction ks as [| k ks IH]; intros acc Hin; [reflexivity |].
  cbn [map fold_left].
  rewrite eeg_step_partial by (apply Hin; now left).
  apply IH. intros; apply Hin; now right.
Qed.

Lemma eeg_loop :
  fold_left (eeg_step payload) (range_0_8 (length payload)) ([], [])
  = (map (fun k => from_bytes_little_signed
                     (slice payload (8 * k) (8 * k + 4)))
         (seq 0 (length payload / 8)),
     map (fun k => from_bytes_little_signed
                     (slice payload (8 * k + 4) (8 * k + 8)))
         (seq 0 (length payload / 8))).
Proof.
  unfold range_0_8.
  set (n := length payload).
  assert (Hsplit : ((n + 7) / 8 = n / 8 + ((n + 7) / 8 - n / 8))%nat).
  { pose proof (Nat.Div0.div_le_mono n (n + 7) 8). lia. }
  rewrite Hsplit, seq_app, map_app, fold_left_app.
  rewrite eeg_fold_partial.
  - rewrite eeg_fold_complete; [reflexivity |].
    intros k Hk. apply in_seq in Hk. fold n.
    pose proof (Nat.div_mod_eq n 8). lia.
  - intros k Hk. apply in_seq in Hk. fold n.
    pose proof (Nat.div_mod_eq n 8). pose proof (Nat.mod_upper_bound n 8).
    lia.
Qed.

End EEGLoop.

Lemma slice_past_header (a b c d : byte) (payload : bytes) (i j : nat) :
  slice (a :: b :: c :: d :: payload) (4 + i) (4 + j) = slice payload i j.
Proof. unfold slice. cbn [Nat.add Nat.sub skipn]. reflexivity. Qed.

Lemma le_combine_two (lo hi : byte) :
  le_combine [lo; hi] = byte.unsigned lo + 256 * byte.unsigned hi.
Proof.
  change (le_combine [lo; hi])
    with (Z.lor (byte.unsigned lo)
            (Z.shiftl (Z.lor (byte.unsigned hi) (Z.shiftl 0 8)) 8)).
  rewrite Z.shiftl_0_l, Z.lor_0_r, Z.lor_comm.
  pose proof (byte.unsigned_range lo).
  rewrite (lor_shiftl_add _ _ 8) by lia. lia.
Qed.



Lemma parse_eeg_packet_short (data : bytes) :
  (length data < 4)%nat -> parse_eeg_packet data = Ok None.
Proof.
  intros Hlen. unfold parse_eeg_packet.
  destruct (Nat.ltb_spec (length data) 4); [reflexivity | lia].
Qed.

(** On four bytes or more the decoder computes the packet of the
    specification. *)
Lemma parse_eeg_packet_spec (data : bytes) :
  (4 <= length data)%nat ->
  parse_eeg_packet data = Ok (Some (decode_eeg_spec data)).
Proof.
  destruct data as [| a [| b [| c [| d payload]]]]; cbn [length]; try lia.
  intros _. unfold parse_eeg_packet. cbn [length Nat.ltb Nat.leb].
  unfold getitem. cbn [nth_error].
  cbv zeta. unfold slice_from. cbn [skipn].
  rewrite eeg_loop. cbn [fst snd].
  unfold decode_eeg_spec. cbn [length nth].
  replace (S (S (S (S (length payload)))) - 4)%nat with (length payload)
    by lia.
  apply f_equal, f_equal. apply f_equal3.
  - unfold from_bytes_little, slice. cbn [Nat.sub skipn firstn].
    apply le_combine_two.
  - apply map_ext. intros k. unfold sample_at.
    rewrite <- Nat.add_assoc, slice_past_header. reflexivity.
  - apply map_ext. intros k. unfold sample_at.
    rewrite <- !Nat.add_assoc, slice_past_header. reflexivity.
Qed.

(** The decoder never raises. *)
Lemma parse_eeg_packet_total (data : bytes) :
  exists r, parse_eeg_packet data = Ok r.
Proof.
  destruct (Nat.lt_ge_cases (length data) 4) as [Hlt | Hge].
  - exists None. now apply parse_eeg_packet_short.
  - eexists. now apply parse_eeg_packet_spec.
Qed.

(** On a payload of ASCII bytes the decoded text is the payload itself,
    one code point per byte. *)
Lemma utf8_decode_ascii (bs : bytes) :
  Forall (fun b => byte.unsigned b <= 127) bs ->
  utf8_decode bs = Some (map byte.unsigned bs).
Proof.
  induction bs as [| c t IH]; intros Hall; [reflexivity |].
  inversion Hall as [| c' t' Hc Ht]; subst.
  cbn [utf8_decode map]. cbv zeta.
  destruct (Z.leb_spec (byte.unsigned c) 127) as [_ | Hgt]; [| lia].
  rewrite (IH Ht). reflexivity.
Qed.

(** [hex] yields two digits per byte. *)
Lemma hex_length (bs : bytes) : length (hex bs) = (2 * length bs)%nat.
Proof.
  induction bs as [| b t IH]; [reflexivity |].
  unfold hex in *. cbn [flat_map]. rewrite length_app, IH.
  cbn [hex_byte length]. lia.
Qed.

(** ** Notification handler *)

Lemma handle_notification_empty (sender : Z) (w : world) :
  handle_notification sender [] w = (Ok tt, w).
Proof. reflexivity. Qed.

Lemma handle_notification_generic
      (sender : Z) (b : byte) (rest : bytes) (w : world) :
  byte.unsigned b <> EEG_PACKET_TYPE ->
  handle_notification sender (b :: rest) w = parse_response (b :: rest) w.
Proof.
  intros Hb. unfold handle_notification. cbn [truthy negb].
  unfold getitem. cbn [nth_error]. unfold bind at 1, lift at 1.
  apply Z.eqb_neq in Hb. rewrite Hb. reflexivity.
Qed.

Lemma handle_notification_eeg (sender : Z) (rest : bytes) (w : world) :
  handle_notification sender (Byte.x04 :: rest) w
  = (Ok tt,
     match parse_eeg_packet (Byte.x04 :: rest) with
     | Ok (Some pkt) =>
       {| self := self w;
          trace := trace w
                   ++ [Print (LEEG (index pkt) (length (ch1 pkt))
                                (length (ch2 pkt)))] |}
     | _ => w
     end).
Proof.
  unfold handle_notification. cbn [truthy negb].
  unfold getitem at 1. cbn [nth_error]. unfold bind at 1, lift at 1.
  change (byte.unsigned Byte.x04 =? EEG_PACKET_TYPE) with true. cbv iota.
  destruct (parse_eeg_packet_total (Byte.x04 :: rest)) as [r Hr].
  unfold bind, lift. rewrite Hr. destruct r as [pkt |]; reflexivity.
Qed.

(** A decoded frame: the call returns, the header line is printed first,
    and the connection handle is left alone. *)
Lemma parse_response_decoded
      (b0 b1 : byte) (payload : bytes) (f t p : Z) (w : world) :
  header (b0 :: b1 :: payload) = Some (f, t, p) ->
  exists w' rest,
    parse_response (b0 :: b1 :: payload) w = (Ok tt, w')
    /\ trace w' = trace w ++ Print (LResponse f t p (hex payload)) :: rest
    /\ client (self w') = client (self w).
Proof.
  intros Hhdr.
  destruct (Z.eq_dec t PDU_RESPONSE) as [Ht | Ht].
  2: { eexists. exists []. split; [| split].
       - apply (parse_response_other_type _ _ _ _ _ _ Hhdr). exact Ht.
       - reflexivity.
       - reflexivity. }
  destruct (Z.eq_dec f CORE_FEATURE) as [Hf | Hf];
    [destruct (Z.eq_dec p CMD_GET_SERIAL) as [Hp | Hp] |].
  - subst. eexists. eexists. split; [| split].
    + apply (parse_response_serial _ _ _ _ Hhdr).
    + cbn [trace]. rewrite <- app_assoc. reflexivity.
    + reflexivity.
  - eexists. exists []. split; [| split].
    + apply (parse_response_unmatched _ _ _ _ _ _ Hhdr);
        unfold BATTERY_FEATURE, CORE_FEATURE in *; congruence.
    + reflexivity.
    + reflexivity.
  - destruct (Z.eq_dec f BATTERY_FEATURE) as [Hb | Hb];
      [destruct (Z.eq_dec p CMD_GET_BATTERY) as [Hp | Hp] |].
    + subst. destruct payload as [| b more].
      * eexists. exists []. split; [| split].
        -- apply (parse_response_battery_empty _ _ _ Hhdr).
        -- reflexivity.
        -- reflexivity.
      * eexists. eexists. split; [| split].
        -- apply (parse_response_battery _ _ _ _ _ Hhdr).
        -- cbn [trace]. rewrite <- app_assoc. reflexivity.
        -- reflexivity.
    + eexists. exists []. split; [| split].
      * apply (parse_response_unmatched _ _ _ _ _ _ Hhdr); congruence.
      * reflexivity.
      * reflexivity.
    + eexists. exists []. split; [| split].
      * apply (parse_response_unmatched _ _ _ _ _ _ Hhdr); congruence.
      * reflexivity.
      * reflexivity.
Qed.

(** What a decoded frame may do to the session: nothing, or the serial
    number on a CORE / GET_SERIAL response, or the battery level on a
    BATTERY / GET_BATTERY response with a payload. *)
Lemma parse_response_self
      (b0 b1 : byte) (payload : bytes) (f t p : Z) (w : world) :
  header (b0 :: b1 :: payload) = Some (f, t, p) ->
  self (snd (parse_response (b0 :: b1 :: payload) w)) = self w
  \/ ((f, t, p) = (CORE_FEATURE, PDU_RESPONSE, CMD_GET_SERIAL)
      /\ battery_level (self (snd (parse_response (b0 :: b1 :: payload) w)))
         = battery_level (self w))
  \/ ((f, t, p) = (BATTERY_FEATURE, PDU_RESPONSE, CMD_GET_BATTERY)
      /\ payload <> []
      /\ serial_number (self (snd (parse_response (b0 :: b1 :: payload) w)))
         = serial_number (self w)).
Proof.
  intros Hhdr.
  destruct (Z.eq_dec t PDU_RESPONSE) as [Ht | Ht].
  2: { left. rewrite (parse_response_other_type _ _ _ _ _ _ Hhdr) by exact Ht.
       reflexivity. }
  destruct (Z.eq_dec f CORE_FEATURE) as [Hf | Hf];
    [destruct (Z.eq_dec p CMD_GET_SERIAL) as [Hp | Hp] |].
  - subst. right. left. split; [reflexivity |].
    rewrite (parse_response_serial _ _ _ _ Hhdr). reflexivity.
  - left. rewrite (parse_response_unmatched _ _ _ _ _ _ Hhdr);
      [reflexivity | |];
      unfold BATTERY_FEATURE, CORE_FEATURE in *; congruence.
  - destruct (Z.eq_dec f BATTERY_FEATURE) as [Hb | Hb];
      [destruct (Z.eq_dec p CMD_GET_BATTERY) as [Hp | Hp] |].
    + subst. destruct payload as [| b more].
      * left. rewrite (parse_response_battery_empty _ _ _ Hhdr).
        reflexivity.
      * right. right. split; [reflexivity |]. split; [discriminate |].
        rewrite (parse_response_battery _ _ _ _ _ Hhdr). reflexivity.
    + left. rewrite (parse_response_unmatched _ _ _ _ _ _ Hhdr);
        [reflexivity | |]; congruence.
    + left. rewrite (parse_response_unmatched _ _ _ _ _ _ Hhdr);
        [reflexivity | |]; congruence.
Qed.

(** ** The claims *)

(** C2.  Round trip: for an in-range triple and any payload, the frame
    that [send_command] writes has the header [(feature_id << 9) |
    (pdu_type << 7) | pdu_id] in two big-endian bytes followed by the
    payload, and [parse_response] recovers from it the same
    [feature_id], [pdu_type] and [pdu_id] and, as [frame[2:]], the same
    payload. *)
Theorem encode_decode_roundtrip :
  forall (feature_id pdu_type pdu_id : Z) (payload : bytes) (w w' : world),
    client (self w) <> None ->
    0 <= feature_id < 128 -> 0 <= pdu_type < 4 -> 0 <= pdu_id < 128 ->
    exists frame,
      fst (send_command feature_id pdu_type pdu_id payload w) = Ok tt
      /\ written (trace (snd (send_command feature_id pdu_type pdu_id
                                payload w)))
         = written (trace w) ++ [frame]
      /\ header frame = Some (feature_id, pdu_type, pdu_id)
      /\ slice_from frame 2 = payload
      /\ exists w'' rest,
          parse_response frame w' = (Ok tt, w'')
          /\ trace w''
             = trace w'
               ++ Print (LResponse feature_id pdu_type pdu_id (hex payload))
                  :: rest.
Proof.
  intros f t p payload w w' Hc Hf Ht Hp.
  pose proof (pack_fields f t p Ht Hp) as Hpack.
  fold (header_word f t p) in Hpack.
  assert (Hfit : 0 <= header_word f t p < 2 ^ 16) by (rewrite Hpack; lia).
  destruct (send_command_range_fits f t p payload w Hc Hfit) as [Hok Hwr].
  destruct (unpack_fields f t p Hf Ht Hp) as [_ [Uf [Ut Up]]].
  rewrite <- Hpack in Uf, Ut, Up.
  assert (Hhdr : header ([byte.of_Z (Z.shiftr (header_word f t p) 8);
                          byte.of_Z (header_word f t p)] ++ payload)
                 = Some (f, t, p)).
  { cbn [app]. unfold header. rewrite Uf, Ut, Up. reflexivity. }
  eexists. split; [exact Hok |]. split; [exact Hwr |].
  split; [exact Hhdr |]. split; [reflexivity |].
  cbn [app] in Hhdr |- *.
  destruct (parse_response_decoded _ _ _ _ _ _ w' Hhdr)
    as [w'' [rest [Hrun [Htr _]]]].
  exists w'', rest. split; assumption.
Qed.

Lemma encode_decode_roundtrip_witness :
  exists frame,
    fst (send_command 0 2 1 [Byte.x4e; Byte.x43] w0) = Ok tt
    /\ written (trace (snd (send_command 0 2 1 [Byte.x4e; Byte.x43] w0)))
       = written (trace w0) ++ [frame]
    /\ header frame = Some (0, 2, 1)
    /\ slice_from frame 2 = [Byte.x4e; Byte.x43]
    /\ exists w'' rest,
        parse_response frame w0 = (Ok tt, w'')
        /\ trace w''
           = trace w0
             ++ Print (LResponse 0 2 1 (hex [Byte.x4e; Byte.x43])) :: rest.
Proof.
  apply (encode_decode_roundtrip 0 2 1 [Byte.x4e; Byte.x43] w0 w0).
  - cbn. discriminate.
  - lia.
  - lia.
  - lia.
Defined.



(** C4 (as amended).  A frame under the minimum length is dropped by an
    early return: [parse_response] on fewer than two bytes returns
    without raising, printing or touching the session, and
    [parse_eeg_packet] on fewer than four bytes returns [None] without
    raising; neither reads a byte.  Only the EEG decoder tells its
    caller: it returns [None] on no longer frame. *)
Theorem short_frames_dropped :
  forall (data : bytes) (w : world),
    ((length data < 2)%nat -> parse_response data w = (Ok tt, w))
    /\ ((length data < 4)%nat -> parse_eeg_packet data = Ok None)
    /\ ((4 <= length data)%nat -> parse_eeg_packet data <> Ok None).
Proof.
  intros data w. repeat split.
  - apply parse_response_short.
  - apply parse_eeg_packet_short.
  - intros Hlen Hnone. rewrite (parse_eeg_packet_spec data Hlen) in Hnone.
    discriminate.
Qed.

Lemma short_frames_dropped_witness :
  parse_response [Byte.x07] w0 = (Ok tt, w0)
  /\ parse_eeg_packet [Byte.x04; Byte.x00; Byte.x05] = Ok None
  /\ parse_eeg_packet [Byte.x04; Byte.x00; Byte.x05; Byte.x00] <> Ok None.
Proof.
  split; [| split].
  - apply (short_frames_dropped [Byte.x07] w0). cbn. lia.
  - apply (short_frames_dropped [Byte.x04; Byte.x00; Byte.x05] w0).
    cbn. lia.
  - apply (short_frames_dropped [Byte.x04; Byte.x00; Byte.x05; Byte.x00] w0).
    cbn. lia.
Defined.

(** C4 (as stated) fails for the response decoder: on the one-byte frame
    [00] it does not fail, it returns as it does on the decodable frame
    [00 00], and no error value reaches its caller. *)
Lemma parse_response_short_is_silent :
  (length [Byte.x00] < 2)%nat
  /\ fst (parse_response [Byte.x00] w0) = Ok tt
  /\ fst (parse_response [Byte.x00] w0)
     = fst (parse_response [Byte.x00; Byte.x00] w0).
Proof. split; [cbn; lia | split; vm_compute; reflexivity]. Qed.

(** C5.  [handle_notification] dispatches on the first byte alone: an
    empty frame is a no-op, a frame starting with 0x04 goes to
    [parse_eeg_packet] (whose packet, if any, is only reported), and a
    frame starting with any other byte goes to [parse_response]. *)
Theorem handle_notification_dispatch :
  forall (sender : Z) (data : bytes) (w : world),
    (data = [] -> handle_notification sender data w = (Ok tt, w))
    /\ (forall rest,
           data = Byte.x04 :: rest ->
           handle_notification sender data w
           = (Ok tt,
              match parse_eeg_packet data with
              | Ok (Some pkt) =>
                {| self := self w;
                   trace := trace w
                            ++ [Print (LEEG (index pkt) (length (ch1 pkt))
                                         (length (ch2 pkt)))] |}
              | _ => w
              end))
    /\ (forall b rest,
           data = b :: rest -> b <> Byte.x04 ->
           handle_notification sender data w = parse_response data w).
Proof.
  intros sender data w. split; [| split].
  - intros ->. apply handle_notification_empty.
  - intros rest ->. apply handle_notification_eeg.
  - intros b rest -> Hb. apply handle_notification_generic.
    intros Hu. apply Hb. apply byte.unsigned_inj. exact Hu.
Qed.

Lemma handle_notification_dispatch_witness :
  handle_notification 0 [] w0 = (Ok tt, w0)
  /\ handle_notification 0 [Byte.x04; Byte.x00; Byte.x05; Byte.x00] w0
     = (Ok tt, {| self := self w0; trace := [Print (LEEG 5 0 0)] |})
  /\ handle_notification 0 [Byte.x07; Byte.x00; Byte.x5a] w0
     = parse_response [Byte.x07; Byte.x00; Byte.x5a] w0.
Proof.
  split; [| split].
  - apply (handle_notification_dispatch 0 [] w0). reflexivity.
  - destruct (handle_notification_dispatch
                0 [Byte.x04; Byte.x00; Byte.x05; Byte.x00] w0)
      as [_ [H _]].
    rewrite (H _ eq_refl). vm_compute. reflexivity.
  - destruct (handle_notification_dispatch
                0 [Byte.x07; Byte.x00; Byte.x5a] w0)
      as [_ [_ H]].
    apply (H _ _ eq_refl). discriminate.
Defined.

(** C6.  A reply with [pdu_type = PDU_RESPONSE], [feature_id =
    BATTERY_FEATURE], [pdu_id = CMD_GET_BATTERY] and a non-empty payload
    sets [battery_level] to the first payload byte, a value in 0..255,
    whatever follows it; the serial number is not touched. *)
Theorem battery_response_sets_level :
  forall (sender : Z) (data : bytes) (b : byte) (more : bytes) (w : world),
    header data = Some (BATTERY_FEATURE, PDU_RESPONSE, CMD_GET_BATTERY) ->
    slice_from data 2 = b :: more ->
    exists w',
      parse_response data w = (Ok tt, w')
      /\ handle_notification sender data w = (Ok tt, w')
      /\ battery_level (self w') = Some (byte.unsigned b)
      /\ 0 <= byte.unsigned b <= 255
      /\ serial_number (self w') = serial_number (self w).
Proof.
  intros sender data b more w Hhdr Hpay.
  destruct data as [| b0 [| b1 payload]]; try discriminate.
  unfold slice_from in Hpay. cbn [skipn] in Hpay. subst payload.
  destruct (header_first_byte _ _ _ _ _ _ Hhdr) as [H0 _].
  eexists. split; [| split; [| split; [| split]]].
  - apply (parse_response_battery _ _ _ _ _ Hhdr).
  - rewrite handle_notification_generic.
    + apply (parse_response_battery _ _ _ _ _ Hhdr).
    + rewrite H0. discriminate.
  - reflexivity.
  - pose proof (byte.unsigned_range b). lia.
  - reflexivity.
Qed.

Lemma battery_response_sets_level_witness :
  exists w',
    parse_response [Byte.x07; Byte.x00; Byte.x5a] w0 = (Ok tt, w')
    /\ handle_notification 0 [Byte.x07; Byte.x00; Byte.x5a] w0 = (Ok tt, w')
    /\ battery_level (self w') = Some 90
    /\ 0 <= 90 <= 255
    /\ serial_number (self w') = serial_number (self w0).
Proof.
  apply (battery_response_sets_level
           0 [Byte.x07; Byte.x00; Byte.x5a] Byte.x5a [] w0).
  - vm_compute. reflexivity.
  - reflexivity.
Defined.

(** On a standard output that encodes every character, a reply with
    [pdu_type = PDU_RESPONSE], [feature_id = CORE_FEATURE] and [pdu_id =
    CMD_GET_SERIAL] sets [serial_number] to the payload decoded as UTF-8
    text or, when the payload is not valid UTF-8, to the payload's
    hexadecimal string, and the call returns for every payload. *)
Theorem serial_response_sets_text :
  forall (sender : Z) (data : bytes) (w : world),
    header data = Some (CORE_FEATURE, PDU_RESPONSE, CMD_GET_SERIAL) ->
    exists w',
      parse_response data w = (Ok tt, w')
      /\ handle_notification sender data w = (Ok tt, w')
      /\ serial_number (self w')
         = Some match utf8_decode (slice_from data 2) with
                | Some text => text
                | None => hex (slice_from data 2)
                end.
Proof.
  intros sender data w Hhdr.
  destruct data as [| b0 [| b1 payload]]; try discriminate.
  destruct (header_first_byte _ _ _ _ _ _ Hhdr) as [H0 _].
  eexists. split; [| split].
  - apply (parse_response_serial _ _ _ _ Hhdr).
  - rewrite handle_notification_generic.
    + apply (parse_response_serial _ _ _ _ Hhdr).
    + rewrite H0. discriminate.
  - reflexivity.
Qed.

Lemma serial_response_sets_text_witness :
  (exists w',
      parse_response [Byte.x01; Byte.x01; Byte.x4e; Byte.x43] w0 = (Ok tt, w')
      /\ handle_notification 0 [Byte.x01; Byte.x01; Byte.x4e; Byte.x43] w0
         = (Ok tt, w')
      /\ serial_number (self w') = Some [78; 67])
  /\ (exists w',
         parse_response [Byte.x01; Byte.x01; Byte.xff; Byte.x43] w0
         = (Ok tt, w')
         /\ handle_notification 0 [Byte.x01; Byte.x01; Byte.xff; Byte.x43] w0
            = (Ok tt, w')
         /\ serial_number (self w') = Some [102; 102; 52; 51]).
Proof.
  split.
  - apply (serial_response_sets_text
             0 [Byte.x01; Byte.x01; Byte.x4e; Byte.x43] w0).
    vm_compute. reflexivity.
  - apply (serial_response_sets_text
             0 [Byte.x01; Byte.x01; Byte.xff; Byte.x43] w0).
    vm_compute. reflexivity.
Defined.

(** C8.  Frame effect of an inbound frame on the session: the serial
    number changes only on a generic frame decoded as a PDU_RESPONSE for
    CORE / GET_SERIAL, the battery level only on one decoded as a
    PDU_RESPONSE for BATTERY / GET_BATTERY (with a payload); an EEG frame
    (first byte 0x04) and a frame of any other PDU type leave the session
    as it was. *)
Theorem session_fields_frame :
  forall (sender : Z) (data : bytes) (w : world),
    (serial_number (self (snd (handle_notification sender data w)))
     <> serial_number (self w) ->
     nth_error data 0 <> Some Byte.x04
     /\ header data = Some (CORE_FEATURE, PDU_RESPONSE, CMD_GET_SERIAL))
    /\ (battery_level (self (snd (handle_notification sender data w)))
        <> battery_level (self w) ->
        nth_error data 0 <> Some Byte.x04
        /\ header data
           = Some (BATTERY_FEATURE, PDU_RESPONSE, CMD_GET_BATTERY)
        /\ slice_from data 2 <> [])
    /\ (nth_error data 0 = Some Byte.x04 ->
        self (snd (handle_notification sender data w)) = self w)
    /\ (forall f t p,
           header data = Some (f, t, p) -> t <> PDU_RESPONSE ->
           self (snd (handle_notification sender data w)) = self w).
Proof.
  intros sender data w.
  destruct data as [| b0 rest].
  { rewrite handle_notification_empty. cbn [snd].
    repeat split; try congruence; try discriminate. }
  destruct (Z.eq_dec (byte.unsigned b0) EEG_PACKET_TYPE) as [Heeg | Hgen].
  { assert (b0 = Byte.x04) as -> by (apply byte.unsigned_inj; exact Heeg).
    rewrite handle_notification_eeg. cbn [snd].
    assert (Hself :
              self match parse_eeg_packet (Byte.x04 :: rest) with
                   | Ok (Some pkt) =>
                     {| self := self w;
                        trace := trace w
                                 ++ [Print (LEEG (index pkt)
                                              (length (ch1 pkt))
                                              (length (ch2 pkt)))] |}
                   | _ => w
                   end = self w).
    { destruct (parse_eeg_packet (Byte.x04 :: rest)) as [[pkt |] | e];
        reflexivity. }
    rewrite Hself. repeat split; congruence. }
  assert (Hb0 : nth_error (b0 :: rest) 0 <> Some Byte.x04).
  { cbn [nth_error]. intros Heq. apply Hgen.
    injection Heq as ->. reflexivity. }
  rewrite (handle_notification_generic _ _ _ _ Hgen).
  destruct rest as [| b1 payload].
  { rewrite parse_response_short by (cbn; lia). cbn [snd].
    repeat split; try congruence; try discriminate. }
  destruct (header_some (b0 :: b1 :: payload)) as
      [c0 [c1 [pl [f [t [p [_ Hhdr]]]]]]]; [cbn; lia |].
  unfold slice_from. cbn [skipn].
  destruct (parse_response_self _ _ _ _ _ _ w Hhdr)
    as [Hsame | [[Htriple Hbat] | [Htriple [Hpay Hser]]]].
  - rewrite Hsame. repeat split; congruence.
  - repeat split; congruence.
  - repeat split; congruence.
Qed.

Lemma session_fields_frame_witness :
  (nth_error [Byte.x01; Byte.x01; Byte.x4e] 0 <> Some Byte.x04
   /\ header [Byte.x01; Byte.x01; Byte.x4e]
      = Some (CORE_FEATURE, PDU_RESPONSE, CMD_GET_SERIAL))
  /\ (nth_error [Byte.x07; Byte.x00; Byte.x5a] 0 <> Some Byte.x04
      /\ header [Byte.x07; Byte.x00; Byte.x5a]
         = Some (BATTERY_FEATURE, PDU_RESPONSE, CMD_GET_BATTERY)
      /\ slice_from [Byte.x07; Byte.x00; Byte.x5a] 2 <> [])
  /\ self (snd (handle_notification 0
                  [Byte.x04; Byte.x08; Byte.x01; Byte.x00] w0)) = self w0
  /\ self (snd (handle_notification 0 [Byte.x07; Byte.x80; Byte.x5a] w0))
     = self w0.
Proof.
  split; [| split; [| split]].
  - destruct (session_fields_frame 0 [Byte.x01; Byte.x01; Byte.x4e] w0)
      as [H _].
    apply H. vm_compute. discriminate.
  - destruct (session_fields_frame 0 [Byte.x07; Byte.x00; Byte.x5a] w0)
      as [_ [H _]].
    apply H. vm_compute. discriminate.
  - destruct (session_fields_frame
                0 [Byte.x04; Byte.x08; Byte.x01; Byte.x00] w0)
      as [_ [_ [H _]]].
    apply H. reflexivity.
  - destruct (session_fields_frame 0 [Byte.x07; Byte.x80; Byte.x5a] w0)
      as [_ [_ [_ H]]].
    apply (H 3 3 0).
    + vm_compute. reflexivity.
    + discriminate.
Defined.

(** C9.  Two frames of four bytes or more that differ at most in the
    byte at offset 1, the embedded length field, decode to the same EEG
    packet. *)
Theorem eeg_length_byte_ignored :
  forall (first len1 len2 : byte) (rest : bytes),
    (4 <= length (first :: len1 :: rest))%nat ->
    exists pkt,
      parse_eeg_packet (first :: len1 :: rest) = Ok (Some pkt)
      /\ parse_eeg_packet (first :: len2 :: rest) = Ok (Some pkt).
Proof.
  intros first len1 len2 rest Hlen.
  exists (decode_eeg_spec (first :: len1 :: rest)).
  split; [now apply parse_eeg_packet_spec |].
  rewrite parse_eeg_packet_spec by exact Hlen.
  destruct rest as [| c [| d payload]]; cbn [length] in Hlen; try lia.
  unfold decode_eeg_spec. cbn [length nth].
  apply f_equal, f_equal. apply f_equal3; [reflexivity | |].
  - apply map_ext. intros k. unfold sample_at.
    rewrite <- Nat.add_assoc, !slice_past_header. reflexivity.
  - apply map_ext. intros k. unfold sample_at.
    rewrite <- !Nat.add_assoc, !slice_past_header. reflexivity.
Qed.

Lemma eeg_length_byte_ignored_witness :
  exists pkt,
    parse_eeg_packet
      [Byte.x04; Byte.x08; Byte.x01; Byte.x00;
       Byte.x01; Byte.x00; Byte.x00; Byte.x00;
       Byte.x02; Byte.x00; Byte.x00; Byte.x00] = Ok (Some pkt)
    /\ parse_eeg_packet
         [Byte.x04; Byte.xff; Byte.x01; Byte.x00;
          Byte.x01; Byte.x00; Byte.x00; Byte.x00;
          Byte.x02; Byte.x00; Byte.x00; Byte.x00] = Ok (Some pkt).
Proof.
  apply (eeg_length_byte_ignored Byte.x04 Byte.x08 Byte.xff
           [Byte.x01; Byte.x00;
            Byte.x01; Byte.x00; Byte.x00; Byte.x00;
            Byte.x02; Byte.x00; Byte.x00; Byte.x00]).
  cbn. lia.
Defined.

(** C10.  A PDU_RESPONSE for CORE / GET_SERIAL with an empty payload
    still updates the session: [serial_number] becomes the empty string.
    The battery path is guarded: a BATTERY / GET_BATTERY response with an
    empty payload leaves the session as it was. *)
Theorem serial_response_empty_payload :
  forall (data : bytes) (w : world),
    slice_from data 2 = [] ->
    (header data = Some (CORE_FEATURE, PDU_RESPONSE, CMD_GET_SERIAL) ->
     fst (parse_response data w) = Ok tt
     /\ serial_number (self (snd (parse_response data w))) = Some [])
    /\ (header data
        = Some (BATTERY_FEATURE, PDU_RESPONSE, CMD_GET_BATTERY) ->
        fst (parse_response data w) = Ok tt
        /\ self (snd (parse_response data w)) = self w).
Proof.
  intros data w Hpay. split; intros Hhdr.
  - destruct data as [| b0 [| b1 payload]]; try discriminate.
    unfold slice_from in Hpay. cbn [skipn] in Hpay. subst payload.
    rewrite (parse_response_serial _ _ _ _ Hhdr). split; reflexivity.
  - destruct data as [| b0 [| b1 payload]]; try discriminate.
    unfold slice_from in Hpay. cbn [skipn] in Hpay. subst payload.
    rewrite (parse_response_battery_empty _ _ _ Hhdr). split; reflexivity.
Qed.

Lemma serial_response_empty_payload_witness :
  (fst (parse_response [Byte.x01; Byte.x01] w0) = Ok tt
   /\ serial_number (self (snd (parse_response [Byte.x01; Byte.x01] w0)))
      = Some [])
  /\ (fst (parse_response [Byte.x07; Byte.x00] w0) = Ok tt
      /\ self (snd (parse_response [Byte.x07; Byte.x00] w0)) = self w0).
Proof.
  split.
  - apply (serial_response_empty_payload [Byte.x01; Byte.x01] w0).
    + reflexivity.
    + vm_compute. reflexivity.
  - apply (serial_response_empty_payload [Byte.x07; Byte.x00] w0).
    + reflexivity.
    + vm_compute. reflexivity.
Defined.

(** ** Further properties of the encoder *)


Lemma written_app (tr1 tr2 : list event) :
  written (tr1 ++ tr2) = written tr1 ++ written tr2.
Proof. unfold written. apply flat_map_app. Qed.

(** The header word that fits 16 bits is read back from its two bytes. *)
Lemma command_id_of_to_bytes (c : Z) :
  0 <= c < 2 ^ 16 ->
  Z.lor (Z.shiftl (byte.unsigned (byte.of_Z (Z.shiftr c 8))) 8)
        (byte.unsigned (byte.of_Z c)) = c.
Proof.
  intros Hc. rewrite command_id_add, !byte.unsigned_of_Z.
  unfold byte.wrap. rewrite Z.shiftr_div_pow2 by lia.
  change (2 ^ 8) with 256. change (2 ^ 16) with 65536 in Hc.
  rewrite (Z.mod_small (c / 256)).
  - pose proof (Z.div_mod c 256). lia.
  - split.
    + apply Z.div_pos; lia.
    + apply Z.div_lt_upper_bound; lia.
Qed.

Lemma lt_pow2_shiftr (x n : Z) :
  0 <= x -> 0 <= n -> (x < 2 ^ n <-> Z.shiftr x n = 0).
Proof.
  intros Hx Hn. rewrite Z.shiftr_div_pow2 by lia.
  assert (0 < 2 ^ n) by (apply Z.pow_pos_nonneg; lia).
  rewrite Z.div_small_iff by lia. lia.
Qed.

(** A bitwise or of non-negative numbers fits [n] bits exactly when both
    do. *)
Lemma lor_lt_pow2 (a b n : Z) :
  0 <= a -> 0 <= b -> 0 <= n ->
  (Z.lor a b < 2 ^ n <-> a < 2 ^ n /\ b < 2 ^ n).
Proof.
  intros Ha Hb Hn.
  assert (Hab : 0 <= Z.lor a b) by (apply Z.lor_nonneg; split; assumption).
  rewrite !lt_pow2_shiftr by assumption.
  rewrite Z.shiftr_lor. apply Z.lor_eq_0_iff.
Qed.

(** X2.  The fields the encoder accepts.  On a connected client and
    non-negative fields the call returns exactly when [feature_id <= 127],
    [pdu_type <= 511] and [pdu_id <= 65535]: the only bound enforced is
    that of the 16-bit header as a whole. *)
Theorem send_command_accepts_iff :
  forall (feature_id pdu_type pdu_id : Z) (data : bytes) (w : world),
    client (self w) <> None ->
    0 <= feature_id -> 0 <= pdu_type -> 0 <= pdu_id ->
    (fst (send_command feature_id pdu_type pdu_id data w) = Ok tt
     <-> feature_id <= 127 /\ pdu_type <= 511 /\ pdu_id <= 65535).
Proof.
  intros f t p data w Hc Hf Ht Hp.
  assert (Hsf : 0 <= Z.shiftl f 9) by (apply Z.shiftl_nonneg; exact Hf).
  assert (Hst : 0 <= Z.shiftl t 7) by (apply Z.shiftl_nonneg; exact Ht).
  assert (Hfit : 0 <= header_word f t p < 2 ^ 16
                 <-> f <= 127 /\ t <= 511 /\ p <= 65535).
  { unfold header_word.
    assert (Hnn : 0 <= Z.lor (Z.lor (Z.shiftl f 9) (Z.shiftl t 7)) p).
    { apply Z.lor_nonneg. split; [| exact Hp].
      apply Z.lor_nonneg. split; assumption. }
    assert (Hl : Z.lor (Z.lor (Z.shiftl f 9) (Z.shiftl t 7)) p < 2 ^ 16
                 <-> (Z.shiftl f 9 < 2 ^ 16 /\ Z.shiftl t 7 < 2 ^ 16)
                     /\ p < 2 ^ 16).
    { rewrite lor_lt_pow2; try lia.
      - rewrite lor_lt_pow2 by lia. reflexivity.
      - apply Z.lor_nonneg. split; assumption. }
    pose proof (Z.shiftl_mul_pow2 f 9) as Hf9.
    pose proof (Z.shiftl_mul_pow2 t 7) as Ht7.
    change (2 ^ 9) with 512 in Hf9. change (2 ^ 7) with 128 in Ht7.
    change (2 ^ 16) with 65536 in *. lia. }
  split.
  - intros Hok. apply Hfit.
    destruct (Z_le_dec 0 (header_word f t p)) as [Hlo | Hlo];
      [destruct (Z_lt_dec (header_word f t p) (2 ^ 16)) as [Hhi | Hhi] |].
    + lia.
    + rewrite send_command_overflows in Hok by (try assumption; lia).
      discriminate.
    + rewrite send_command_overflows in Hok by (try assumption; lia).
      discriminate.
  - intros Hr. apply Hfit in Hr.
    apply (send_command_range_fits f t p data w Hc Hr).
Qed.

Lemma send_command_accepts_iff_witness :
  fst (send_command 127 511 65535 [] w0) = Ok tt
  <-> 127 <= 127 /\ 511 <= 511 /\ 65535 <= 65535.
Proof.
  apply (send_command_accepts_iff 127 511 65535 [] w0).
  - cbn. discriminate.
  - lia.
  - lia.
  - lia.
Defined.

(** X3.  A negative field, whichever it is, makes the call fail with
    [OverflowError] and leaves the world as it was. *)
Theorem send_command_negative_field :
  forall (feature_id pdu_type pdu_id : Z) (data : bytes) (w : world),
    client (self w) <> None ->
    feature_id < 0 \/ pdu_type < 0 \/ pdu_id < 0 ->
    send_command feature_id pdu_type pdu_id data w
    = (Raise OverflowError, w).
Proof.
  intros f t p data w Hc Hneg.
  apply send_command_overflows; [exact Hc |].
  assert (Hlt : header_word f t p < 0).
  { unfold header_word. apply Z.lor_neg.
    destruct Hneg as [H | [H | H]].
    - left. apply Z.lor_neg. left. apply Z.shiftl_neg. exact H.
    - left. apply Z.lor_neg. right. apply Z.shiftl_neg. exact H.
    - right. exact H. }
  lia.
Qed.

Lemma send_command_negative_field_witness :
  send_command 0 (-1) 0 [] w0 = (Raise OverflowError, w0).
Proof.
  apply (send_command_negative_field 0 (-1) 0 [] w0).
  - cbn. discriminate.
  - right. left. lia.
Defined.

(** X4.  What the decoder makes of any accepted call: the frame written
    for a header word [c] that fits 16 bits has, under the formulas of
    [parse_response], the fields [c >> 9], [(c >> 7) & 3] and [c & 127],
    and its payload is [data].  Out-of-range [pdu_type] and [pdu_id]
    values that were accepted are read back as these in-range ones. *)
Theorem send_command_frame_as_decoded :
  forall (feature_id pdu_type pdu_id : Z) (data : bytes) (w : world),
    client (self w) <> None ->
    0 <= header_word feature_id pdu_type pdu_id < 2 ^ 16 ->
    exists frame,
      written (trace (snd (send_command feature_id pdu_type pdu_id data w)))
      = written (trace w) ++ [frame]
      /\ header frame
         = Some (Z.shiftr (header_word feature_id pdu_type pdu_id) 9,
                 Z.land
                   (Z.shiftr (header_word feature_id pdu_type pdu_id) 7) 3,
                 Z.land (header_word feature_id pdu_type pdu_id) 127)
      /\ slice_from frame 2 = data.
Proof.
  intros f t p data w Hc Hfit.
  destruct (send_command_range_fits f t p data w Hc Hfit) as [_ Hwr].
  eexists. split; [exact Hwr |]. split; [| reflexivity].
  cbn [app]. unfold header.
  rewrite (command_id_of_to_bytes _ Hfit). reflexivity.
Qed.

Lemma send_command_frame_as_decoded_witness :
  exists frame,
    written (trace (snd (send_command 0 4 128 [Byte.x09] w0)))
    = written (trace w0) ++ [frame]
    /\ header frame = Some (1, 1, 0)
    /\ slice_from frame 2 = [Byte.x09].
Proof.
  apply (send_command_frame_as_decoded 0 4 128 [Byte.x09] w0).
  - cbn. discriminate.
  - vm_compute. split; [discriminate | reflexivity].
Defined.

(** The header word of the triple decoded from two bytes is those two
    bytes. *)
Lemma header_word_of_header
      (b0 b1 : byte) (payload : bytes) (f t p : Z) :
  header (b0 :: b1 :: payload) = Some (f, t, p) ->
  header_word f t p = byte.unsigned b0 * 256 + byte.unsigned b1
  /\ 0 <= f < 128 /\ 0 <= t < 4 /\ 0 <= p < 128.
Proof.
  intros Hhdr.
  destruct (header_first_byte _ _ _ _ _ _ Hhdr) as [H0 [H1 [Hf [Ht Hp]]]].
  unfold header_word. rewrite (pack_fields f t p Ht Hp).
  split; [| repeat split; lia].
  rewrite H0, H1. pose proof (Z.div_mod t 2). lia.
Qed.

(** X5.  Decoding then encoding gives the frame back: sending the triple
    and payload that [parse_response] reads from a frame of two bytes or
    more writes that very frame. *)
Theorem parse_then_send_roundtrip :
  forall (data : bytes) (f t p : Z) (w : world),
    client (self w) <> None ->
    header data = Some (f, t, p) ->
    fst (send_command f t p (slice_from data 2) w) = Ok tt
    /\ written (trace (snd (send_command f t p (slice_from data 2) w)))
       = written (trace w) ++ [data].
Proof.
  intros data f t p w Hc Hhdr.
  destruct data as [| b0 [| b1 payload]]; try discriminate.
  destruct (header_word_of_header _ _ _ _ _ _ Hhdr) as [Hw _].
  pose proof (byte.unsigned_range b0) as R0.
  pose proof (byte.unsigned_range b1) as R1.
  change (2 ^ 8) with 256 in R0, R1.
  assert (Hfit : 0 <= header_word f t p < 2 ^ 16).
  { rewrite Hw. change (2 ^ 16) with 65536. lia. }
  destruct (send_command_range_fits f t p (slice_from (b0 :: b1 :: payload) 2)
              w Hc Hfit) as [Hok Hwr].
  split; [exact Hok |]. rewrite Hwr.
  unfold slice_from. cbn [skipn app].
  assert (E0 : byte.of_Z (Z.shiftr (header_word f t p) 8) = b0).
  { rewrite Hw, Z.shiftr_div_pow2 by lia. change (2 ^ 8) with 256.
    replace ((byte.unsigned b0 * 256 + byte.unsigned b1) / 256)
      with (byte.unsigned b0).
    - apply byte.of_Z_unsigned.
    - apply (Z.div_unique _ 256 _ (byte.unsigned b1)); lia. }
  assert (E1 : byte.of_Z (header_word f t p) = b1).
  { apply byte.unsigned_inj. rewrite byte.unsigned_of_Z, Hw.
    unfold byte.wrap. change (2 ^ 8) with 256.
    symmetry. apply (Z.mod_unique _ 256 (byte.unsigned b0)); lia. }
  rewrite E0, E1. reflexivity.
Qed.

Lemma parse_then_send_roundtrip_witness :
  fst (send_command 3 2 0 (slice_from [Byte.x07; Byte.x00; Byte.x5a] 2) w0)
  = Ok tt
  /\ written
       (trace (snd (send_command 3 2 0
                      (slice_from [Byte.x07; Byte.x00; Byte.x5a] 2) w0)))
     = written (trace w0) ++ [[Byte.x07; Byte.x00; Byte.x5a]].
Proof.
  apply (parse_then_send_roundtrip [Byte.x07; Byte.x00; Byte.x5a] 3 2 0 w0).
  - cbn. discriminate.
  - vm_compute. reflexivity.
Defined.

(** X6.  The encoder is injective on in-range fields: two calls that
    leave the same world behind had the same triple and the same
    payload. *)
Theorem send_command_injective :
  forall (f t p f' t' p' : Z) (data data' : bytes) (w : world),
    client (self w) <> None ->
    0 <= f < 128 -> 0 <= t < 4 -> 0 <= p < 128 ->
    0 <= f' < 128 -> 0 <= t' < 4 -> 0 <= p' < 128 ->
    send_command f t p data w = send_command f' t' p' data' w ->
    f = f' /\ t = t' /\ p = p' /\ data = data'.
Proof.
  intros f t p f' t' p' data data' w Hc Hf Ht Hp Hf' Ht' Hp' Heq.
  pose proof (pack_fields f t p Ht Hp) as Hw.
  pose proof (pack_fields f' t' p' Ht' Hp') as Hw'.
  fold (header_word f t p) in Hw. fold (header_word f' t' p') in Hw'.
  assert (Hfit : 0 <= header_word f t p < 2 ^ 16) by (rewrite Hw; lia).
  assert (Hfit' : 0 <= header_word f' t' p' < 2 ^ 16) by (rewrite Hw'; lia).
  destruct (send_command_range_fits f t p data w Hc Hfit) as [_ Hwr].
  destruct (send_command_range_fits f' t' p' data' w Hc Hfit') as [_ Hwr'].
  rewrite Heq, Hwr' in Hwr. apply app_inv_head in Hwr.
  cbn [app] in Hwr. injection Hwr as Ehi Elo Edata.
  assert (Ew : header_word f t p = header_word f' t' p').
  { rewrite <- (command_id_of_to_bytes _ Hfit).
    rewrite <- (command_id_of_to_bytes _ Hfit').
    rewrite Ehi, Elo. reflexivity. }
  rewrite Hw, Hw' in Ew. repeat split; try lia. congruence.
Qed.

Lemma send_command_injective_witness :
  1 = 1 /\ 0 = 0 /\ 1 = 1 /\ [Byte.x01] = [Byte.x01].
Proof.
  apply (send_command_injective 1 0 1 1 0 1 [Byte.x01] [Byte.x01] w0);
    try lia.
  - cbn. discriminate.
  - reflexivity.
Defined.

(** ** Further properties of the decoders *)



(** X8.  The three fields [parse_response] reads from a frame of two
    bytes or more, and prints first, are always in range and together
    hold all 16 header bits: [feature_id * 512 + pdu_type * 128 + pdu_id]
    is the big-endian value of the first two bytes. *)
Theorem response_header_fields :
  forall (data : bytes) (w : world),
    (2 <= length data)%nat ->
    exists f t p rest,
      trace (snd (parse_response data w))
      = trace w ++ Print (LResponse f t p (hex (slice_from data 2))) :: rest
      /\ 0 <= f < 128 /\ 0 <= t < 4 /\ 0 <= p < 128
      /\ f * 512 + t * 128 + p
         = 256 * byte.unsigned (nth 0 data Byte.x00)
           + byte.unsigned (nth 1 data Byte.x00).
Proof.
  intros data w Hlen.
  destruct (header_some data Hlen) as [b0 [b1 [payload [f [t [p [-> Hhdr]]]]]]].
  destruct (parse_response_decoded _ _ _ _ _ _ w Hhdr)
    as [w' [rest [Hrun [Htr _]]]].
  destruct (header_word_of_header _ _ _ _ _ _ Hhdr) as [Hw [Hf [Ht Hp]]].
  exists f, t, p, rest. rewrite Hrun. cbn [snd].
  split; [exact Htr |]. repeat split; try lia.
  unfold header_word in Hw. rewrite (pack_fields f t p Ht Hp) in Hw.
  cbn [nth]. lia.
Qed.

Lemma response_header_fields_witness :
  exists f t p rest,
    trace (snd (parse_response [Byte.xff; Byte.xff; Byte.x01] w0))
    = trace w0
      ++ Print (LResponse f t p
                  (hex (slice_from [Byte.xff; Byte.xff; Byte.x01] 2)))
         :: rest
    /\ 0 <= f < 128 /\ 0 <= t < 4 /\ 0 <= p < 128
    /\ f * 512 + t * 128 + p
       = 256 * byte.unsigned (nth 0 [Byte.xff; Byte.xff; Byte.x01] Byte.x00)
         + byte.unsigned (nth 1 [Byte.xff; Byte.xff; Byte.x01] Byte.x00).
Proof.
  apply (response_header_fields [Byte.xff; Byte.xff; Byte.x01] w0).
  cbn. lia.
Defined.

(** X9.  A serial payload made of ASCII bytes is stored as it is, one
    character per byte. *)
Theorem serial_ascii_verbatim :
  forall (data : bytes) (w : world),
    header data = Some (CORE_FEATURE, PDU_RESPONSE, CMD_GET_SERIAL) ->
    Forall (fun b => byte.unsigned b <= 127) (slice_from data 2) ->
    serial_number (self (snd (parse_response data w)))
    = Some (map byte.unsigned (slice_from data 2)).
Proof.
  intros data w Hhdr Hascii.
  destruct data as [| b0 [| b1 payload]]; try discriminate.
  rewrite (parse_response_serial _ _ _ _ Hhdr). cbn [snd self serial_number].
  unfold slice_from in *. cbn [skipn] in *.
  rewrite (utf8_decode_ascii payload Hascii). reflexivity.
Qed.

Lemma serial_ascii_verbatim_witness :
  serial_number
    (self (snd (parse_response [Byte.x01; Byte.x01; Byte.x4e; Byte.x31] w0)))
  = Some [78; 49].
Proof.
  apply (serial_ascii_verbatim [Byte.x01; Byte.x01; Byte.x4e; Byte.x31] w0).
  - vm_compute. reflexivity.
  - repeat constructor; vm_compute; discriminate.
Defined.

Lemma handle_notification_serial
      (sender : Z) (b0 b1 : byte) (payload : bytes) (w : world) :
  header (b0 :: b1 :: payload)
  = Some (CORE_FEATURE, PDU_RESPONSE, CMD_GET_SERIAL) ->
  handle_notification sender (b0 :: b1 :: payload) w
  = parse_response (b0 :: b1 :: payload) w.
Proof.
  intros Hhdr. apply handle_notification_generic.
  destruct (header_first_byte _ _ _ _ _ _ Hhdr) as [H0 _].
  rewrite H0. discriminate.
Qed.

Lemma handle_notification_battery
      (sender : Z) (b0 b1 : byte) (payload : bytes) (w : world) :
  header (b0 :: b1 :: payload)
  = Some (BATTERY_FEATURE, PDU_RESPONSE, CMD_GET_BATTERY) ->
  handle_notification sender (b0 :: b1 :: payload) w
  = parse_response (b0 :: b1 :: payload) w.
Proof.
  intros Hhdr. apply handle_notification_generic.
  destruct (header_first_byte _ _ _ _ _ _ Hhdr) as [H0 _].
  rewrite H0. discriminate.
Qed.

(** X10.  A serial response and a battery response commute: handled in
    either order they leave the same session, with both fields set. *)
Theorem serial_battery_commute :
  forall (sender : Z) (ds db : bytes) (b : byte) (more : bytes) (w : world),
    header ds = Some (CORE_FEATURE, PDU_RESPONSE, CMD_GET_SERIAL) ->
    header db = Some (BATTERY_FEATURE, PDU_RESPONSE, CMD_GET_BATTERY) ->
    slice_from db 2 = b :: more ->
    let after_sb :=
      (handle_notification sender ds;; handle_notification sender db) w in
    let after_bs :=
      (handle_notification sender db;; handle_notification sender ds) w in
    fst after_sb = Ok tt /\ fst after_bs = Ok tt
    /\ self (snd after_sb) = self (snd after_bs)
    /\ self (snd after_sb)
       = {| client := client (self w);
            serial_number :=
              Some match utf8_decode (slice_from ds 2) with
                   | Some text => text
                   | None => hex (slice_from ds 2)
                   end;
            battery_level := Some (byte.unsigned b) |}.
Proof.
  intros sender ds db b more w Hs Hb Hpay.
  destruct ds as [| s0 [| s1 ps]]; try discriminate.
  destruct db as [| c0 [| c1 pb]]; try discriminate.
  unfold slice_from in *. cbn [skipn] in *. subst pb.
  cbv zeta. unfold bind.
  rewrite (handle_notification_serial _ _ _ _ _ Hs).
  rewrite (handle_notification_battery _ _ _ _ _ Hb).
  rewrite (parse_response_serial _ _ _ _ Hs).
  rewrite (parse_response_battery _ _ _ _ _ Hb).
  rewrite (handle_notification_serial _ _ _ _ _ Hs).
  rewrite (handle_notification_battery _ _ _ _ _ Hb).
  rewrite (parse_response_serial _ _ _ _ Hs).
  rewrite (parse_response_battery _ _ _ _ _ Hb).
  repeat split.
Qed.

Lemma serial_battery_commute_witness :
  self (snd ((handle_notification 0 [Byte.x01; Byte.x01; Byte.x4e];;
              handle_notification 0 [Byte.x07; Byte.x00; Byte.x5a]) w0))
  = {| client := client (self w0);
       serial_number := Some [78];
       battery_level := Some 90 |}.
Proof.
  destruct (serial_battery_commute
              0 [Byte.x01; Byte.x01; Byte.x4e] [Byte.x07; Byte.x00; Byte.x5a]
              Byte.x5a [] w0) as [_ [_ [_ H]]].
  - vm_compute. reflexivity.
  - vm_compute. reflexivity.
  - reflexivity.
  - exact H.
Defined.

(** X11.  What the handler reports of an EEG frame.  A frame that starts
    with 0x04 and has four bytes or more prints one line, with the index
    and, for both channels, the sample count [(len - 4) / 8]; a shorter
    one prints nothing.  The session is left alone either way. *)
Theorem handle_notification_eeg_report :
  forall (sender : Z) (rest : bytes) (w : world),
    ((length (Byte.x04 :: rest) < 4)%nat ->
     handle_notification sender (Byte.x04 :: rest) w = (Ok tt, w))
    /\ ((4 <= length (Byte.x04 :: rest))%nat ->
        handle_notification sender (Byte.x04 :: rest) w
        = (Ok tt,
           {| self := self w;
              trace :=
                trace w
                ++ [Print
                      (LEEG (byte.unsigned (nth 1 rest Byte.x00)
                             + 256 * byte.unsigned (nth 2 rest Byte.x00))
                         ((length (Byte.x04 :: rest) - 4) / 8)
                         ((length (Byte.x04 :: rest) - 4) / 8))] |})).
Proof.
  intros sender rest w. split; intros Hlen.
  - rewrite handle_notification_eeg.
    rewrite parse_eeg_packet_short by exact Hlen. reflexivity.
  - rewrite handle_notification_eeg.
    rewrite (parse_eeg_packet_spec _ Hlen).
    unfold decode_eeg_spec. cbn [index ch1 ch2].
    rewrite !length_map, !length_seq. reflexivity.
Qed.

Lemma handle_notification_eeg_report_witness :
  handle_notification 0 [Byte.x04; Byte.x00; Byte.x05] w0 = (Ok tt, w0)
  /\ handle_notification 0
       [Byte.x04; Byte.x08; Byte.x01; Byte.x00;
        Byte.x01; Byte.x00; Byte.x00; Byte.x00;
        Byte.x02; Byte.x00; Byte.x00; Byte.x00; Byte.x07] w0
     = (Ok tt, {| self := self w0; trace := [Print (LEEG 1 1 1)] |}).
Proof.
  split.
  - apply (handle_notification_eeg_report 0 [Byte.x00; Byte.x05] w0).
    cbn. lia.
  - apply (handle_notification_eeg_report
             0 [Byte.x08; Byte.x01; Byte.x00;
                Byte.x01; Byte.x00; Byte.x00; Byte.x00;
                Byte.x02; Byte.x00; Byte.x00; Byte.x00; Byte.x07] w0).
    cbn. lia.
Defined.

(** ** Further properties of the EEG decoder *)

Lemma slice_app_l (l1 l2 : bytes) (lo hi : nat) :
  (hi <= length l1)%nat -> slice (l1 ++ l2) lo hi = slice l1 lo hi.
Proof.
  intros Hhi. unfold slice. rewrite skipn_app, firstn_app, length_skipn.
  replace (hi - lo - (length l1 - lo))%nat with 0%nat by lia.
  cbn [firstn]. apply app_nil_r.
Qed.

Lemma slice_app_r (l1 l2 : bytes) (lo hi : nat) :
  slice (l1 ++ l2) (length l1 + lo) (length l1 + hi) = slice l2 lo hi.
Proof.
  unfold slice. rewrite skipn_app.
  rewrite skipn_all2 by lia. cbn [app].
  replace (length l1 + lo - length l1)%nat with lo by lia.
  replace (length l1 + hi - (length l1 + lo))%nat with (hi - lo)%nat by lia.
  reflexivity.
Qed.

Lemma seq_from (m q : nat) : seq m q = map (fun k => (m + k)%nat) (seq 0 q).
Proof.
  revert m. induction q as [| q IH]; intros m; [reflexivity |].
  cbn [seq map]. rewrite Nat.add_0_r. f_equal.
  rewrite IH, <- (seq_shift q 0), map_map.
  apply map_ext. intros k. lia.
Qed.

(** The decoder on a frame with its four header bytes set apart. *)
Lemma parse_eeg_packet_payload (a b c d : byte) (payload : bytes) :
  parse_eeg_packet (a :: b :: c :: d :: payload)
  = Ok (Some {| index := le_combine [c; d];
                ch1 := stride_samples 0 payload;
                ch2 := stride_samples 4 payload |}).
Proof.
  unfold parse_eeg_packet. cbn [length Nat.ltb Nat.leb].
  unfold getitem. cbn [nth_error].
  cbv zeta. unfold slice_from. cbn [skipn].
  rewrite eeg_loop. cbn [fst snd].
  apply f_equal, f_equal. apply f_equal3.
  - reflexivity.
  - unfold stride_samples. apply map_ext. intros k.
    rewrite Nat.add_0_r. reflexivity.
  - unfold stride_samples. apply map_ext. intros k.
    rewrite <- Nat.add_assoc. reflexivity.
Qed.

(** Samples of a payload that continues after whole strides. *)
Lemma stride_samples_app (o : nat) (p1 p2 : bytes) :
  (o <= 4)%nat -> (length p1 mod 8 = 0)%nat ->
  stride_samples o (p1 ++ p2) = stride_samples o p1 ++ stride_samples o p2.
Proof.
  intros Ho Hal. unfold stride_samples.
  pose proof (Nat.div_mod_eq (length p1) 8) as Hm.
  set (m := (length p1 / 8)%nat) in *.
  assert (Hlen1 : length p1 = (8 * m)%nat) by lia.
  assert (Hdiv : (length (p1 ++ p2) / 8 = m + length p2 / 8)%nat).
  { rewrite length_app, Hlen1.
    rewrite (Nat.mul_comm 8 m), Nat.div_add_l by lia. reflexivity. }
  rewrite Hdiv, seq_app, map_app. f_equal.
  - apply map_ext_in. intros k Hk. apply in_seq in Hk.
    rewrite slice_app_l by lia. reflexivity.
  - cbn [Nat.add]. rewrite (seq_from m), map_map.
    apply map_ext. intros k.
    replace (8 * (m + k) + o)%nat with (length p1 + (8 * k + o))%nat by lia.
    replace (length p1 + (8 * k + o) + 4)%nat
      with (length p1 + (8 * k + o + 4))%nat by lia.
    rewrite slice_app_r. reflexivity.
Qed.

(** Bytes short of a stride carry no sample. *)
Lemma stride_samples_short (o : nat) (p : bytes) :
  (length p < 8)%nat -> stride_samples o p = [].
Proof.
  intros Hlen. unfold stride_samples.
  rewrite Nat.div_small by exact Hlen. reflexivity.
Qed.

(** Samples do not depend on bytes that leave the last stride short. *)
Lemma stride_samples_trailing (o : nat) (payload extra : bytes) :
  (o <= 4)%nat ->
  (length payload mod 8 + length extra < 8)%nat ->
  stride_samples o (payload ++ extra) = stride_samples o payload.
Proof.
  intros Ho Hpart.
  pose proof (Nat.div_mod_eq (length payload) 8) as Hm.
  assert (Hsplit : exists p1 p2,
             payload = p1 ++ p2
             /\ (length p1 mod 8 = 0)%nat
             /\ length p2 = (length payload mod 8)%nat).
  { exists (firstn (8 * (length payload / 8)) payload),
           (skipn (8 * (length payload / 8)) payload).
    split; [symmetry; apply firstn_skipn |].
    rewrite length_firstn, length_skipn. split; [| lia].
    replace (Nat.min (8 * (length payload / 8)) (length payload))
      with (length payload / 8 * 8)%nat by lia.
    apply Nat.Div0.mod_mul. }
  destruct Hsplit as [p1 [p2 [-> [Hal Hl2]]]].
  rewrite <- app_assoc.
  rewrite !(stride_samples_app o p1) by assumption.
  rewrite (stride_samples_short o p2) by lia.
  rewrite (stride_samples_short o (p2 ++ extra))
    by (rewrite length_app; lia).
  reflexivity.
Qed.

(** X12.  Bytes after the last complete stride do not matter: adding
    bytes to a frame of four bytes or more, as long as they do not
    complete a stride, gives the same packet. *)
Theorem eeg_trailing_bytes_ignored :
  forall (frame extra : bytes),
    (4 <= length frame)%nat ->
    ((length frame - 4) mod 8 + length extra < 8)%nat ->
    parse_eeg_packet (frame ++ extra) = parse_eeg_packet frame.
Proof.
  intros frame extra Hlen Hpart.
  destruct frame as [| a [| b [| c [| d payload]]]]; cbn [length] in Hlen;
    try lia.
  cbn [app]. rewrite !parse_eeg_packet_payload.
  cbn [length] in Hpart.
  replace (S (S (S (S (length payload)))) - 4)%nat with (length payload)
    in Hpart by lia.
  rewrite !stride_samples_trailing by (lia || exact Hpart).
  reflexivity.
Qed.

Lemma eeg_trailing_bytes_ignored_witness :
  parse_eeg_packet
    ([Byte.x04; Byte.x08; Byte.x01; Byte.x00;
      Byte.x01; Byte.x00; Byte.x00; Byte.x00;
      Byte.x02; Byte.x00; Byte.x00; Byte.x00; Byte.xaa]
     ++ [Byte.xbb; Byte.xcc])
  = parse_eeg_packet
      [Byte.x04; Byte.x08; Byte.x01; Byte.x00;
       Byte.x01; Byte.x00; Byte.x00; Byte.x00;
       Byte.x02; Byte.x00; Byte.x00; Byte.x00; Byte.xaa].
Proof.
  apply eeg_trailing_bytes_ignored.
  - cbn. lia.
  - cbn. lia.
Defined.

(** X13.  Decoding distributes over whole strides: when the payload of a
    frame continues, after a whole number of strides, with further bytes,
    each channel is the samples of the first part followed by the samples
    of the rest, under the index of the common header. *)
Theorem eeg_payload_concat :
  forall (h p1 p2 : bytes),
    length h = 4%nat ->
    (length p1 mod 8 = 0)%nat ->
    exists pkt1 pkt2,
      parse_eeg_packet (h ++ p1) = Ok (Some pkt1)
      /\ parse_eeg_packet (h ++ p2) = Ok (Some pkt2)
      /\ parse_eeg_packet (h ++ p1 ++ p2)
         = Ok (Some {| index := index pkt1;
                       ch1 := ch1 pkt1 ++ ch1 pkt2;
                       ch2 := ch2 pkt1 ++ ch2 pkt2 |})
      /\ index pkt2 = index pkt1.
Proof.
  intros h p1 p2 Hh Hal.
  destruct h as [| a [| b [| c [| d [| e h]]]]]; try discriminate.
  cbn [app]. rewrite !parse_eeg_packet_payload.
  do 2 eexists. split; [reflexivity |]. split; [reflexivity |].
  cbn [index ch1 ch2].
  rewrite !stride_samples_app by (lia || exact Hal).
  split; reflexivity.
Qed.

Lemma eeg_payload_concat_witness :
  exists pkt1 pkt2,
    parse_eeg_packet
      ([Byte.x04; Byte.x08; Byte.x01; Byte.x00]
       ++ [Byte.x01; Byte.x00; Byte.x00; Byte.x00;
           Byte.x02; Byte.x00; Byte.x00; Byte.x00]) = Ok (Some pkt1)
    /\ parse_eeg_packet
         ([Byte.x04; Byte.x08; Byte.x01; Byte.x00] ++ [Byte.x07])
       = Ok (Some pkt2)
    /\ parse_eeg_packet
         ([Byte.x04; Byte.x08; Byte.x01; Byte.x00]
          ++ [Byte.x01; Byte.x00; Byte.x00; Byte.x00;
              Byte.x02; Byte.x00; Byte.x00; Byte.x00] ++ [Byte.x07])
       = Ok (Some {| index := index pkt1;
                     ch1 := ch1 pkt1 ++ ch1 pkt2;
                     ch2 := ch2 pkt1 ++ ch2 pkt2 |})
    /\ index pkt2 = index pkt1.
Proof.
  apply eeg_payload_concat.
  - reflexivity.
  - reflexivity.
Defined.

(** X14.  The EEG decoder reads neither of the first two bytes: the
    packet type is the caller's test, the length byte an unused local. *)
Theorem eeg_first_two_bytes_ignored :
  forall (a b a' b' : byte) (rest : bytes),
    parse_eeg_packet (a :: b :: rest) = parse_eeg_packet (a' :: b' :: rest).
Proof.
  intros a b a' b' rest.
  destruct rest as [| c [| d payload]].
  - rewrite !parse_eeg_packet_short by (cbn; lia). reflexivity.
  - rewrite !parse_eeg_packet_short by (cbn; lia). reflexivity.
  - rewrite !parse_eeg_packet_payload. reflexivity.
Qed.

(** A value in the signed 32-bit range is read back from its four
    little-endian bytes. *)
Lemma from_bytes_little_signed_le_split (x : Z) :
  - 2 ^ 31 <= x < 2 ^ 31 ->
  from_bytes_little_signed (le_split 4 x) = x.
Proof.
  intros Hx. unfold from_bytes_little_signed.
  rewrite le_combine_split, length_le_split.
  change (Z.of_nat 4 * 8) with 32. change (8 * Z.of_nat 4) with 32.
  change (0 <? 32) with true. change (32 - 1) with 31. cbn [andb].
  change (2 ^ 32) with 4294967296. change (2 ^ 31) with 2147483648 in *.
  destruct (Z.lt_ge_cases x 0) as [Hneg | Hpos].
  - assert (Hmod : x mod 4294967296 = x + 4294967296).
    { symmetry. apply (Z.mod_unique _ _ (-1)); lia. }
    rewrite Hmod.
    destruct (Z.leb_spec 2147483648 (x + 4294967296)); lia.
  - rewrite Z.mod_small by lia.
    destruct (Z.leb_spec 2147483648 x); lia.
Qed.

(** One stride: four bytes of channel 1, then four bytes of channel 2. *)
Lemma stride_samples_one (c1 c2 : bytes) :
  length c1 = 4%nat -> length c2 = 4%nat ->
  stride_samples 0 (c1 ++ c2) = [from_bytes_little_signed c1]
  /\ stride_samples 4 (c1 ++ c2) = [from_bytes_little_signed c2].
Proof.
  intros H1 H2. unfold stride_samples.
  rewrite length_app, H1, H2. cbn [Nat.add Nat.div Nat.divmod fst seq map].
  cbn [Nat.mul Nat.add]. split.
  - rewrite slice_app_l by lia.
    unfold slice. cbn [skipn Nat.sub].
    rewrite firstn_all2 by lia. reflexivity.
  - change 4%nat with (4 + 0)%nat at 1. rewrite <- H1 at 1.
    change 8%nat with (4 + 4)%nat. rewrite <- H1 at 1.
    rewrite slice_app_r.
    unfold slice. cbn [skipn Nat.sub].
    rewrite firstn_all2 by lia. reflexivity.
Qed.

Lemma stride_samples_wire (xs ys : list Z) :
  length xs = length ys ->
  Forall (fun x => - 2 ^ 31 <= x < 2 ^ 31) xs ->
  Forall (fun y => - 2 ^ 31 <= y < 2 ^ 31) ys ->
  stride_samples 0 (eeg_wire_samples xs ys) = xs
  /\ stride_samples 4 (eeg_wire_samples xs ys) = ys.
Proof.
  revert ys. induction xs as [| x xs IH]; intros ys Hlen Hxs Hys.
  - destruct ys; [| discriminate]. split; reflexivity.
  - destruct ys as [| y ys]; [discriminate |].
    injection Hlen as Hlen.
    inversion Hxs as [| x' xs' Hx Hxs']; subst.
    inversion Hys as [| y' ys' Hy Hys']; subst.
    destruct (IH ys Hlen Hxs' Hys') as [IH1 IH2].
    destruct (stride_samples_one (le_split 4 x) (le_split 4 y))
      as [S1 S2]; try apply length_le_split.
    assert (Hal : (length (le_split 4 x ++ le_split 4 y) mod 8 = 0)%nat)
      by (rewrite length_app, !length_le_split; reflexivity).
    cbn [eeg_wire_samples]. rewrite app_assoc.
    rewrite (stride_samples_app 0) by (lia || exact Hal).
    rewrite (stride_samples_app 4) by (lia || exact Hal).
    rewrite S1, S2, IH1, IH2.
    rewrite !from_bytes_little_signed_le_split by assumption.
    split; reflexivity.
Qed.

(** X15.  The decoder inverts the wire format: the frame laid out for an
    index below 65536 and two equally long lists of signed 32-bit samples
    decodes to that index and those lists, whatever its length byte. *)
Theorem eeg_wire_roundtrip :
  forall (length_byte : byte) (idx : Z) (xs ys : list Z),
    0 <= idx < 2 ^ 16 ->
    length xs = length ys ->
    Forall (fun x => - 2 ^ 31 <= x < 2 ^ 31) xs ->
    Forall (fun y => - 2 ^ 31 <= y < 2 ^ 31) ys ->
    parse_eeg_packet (eeg_wire_frame length_byte idx xs ys)
    = Ok (Some {| index := idx; ch1 := xs; ch2 := ys |}).
Proof.
  intros lb idx xs ys Hidx Hlen Hxs Hys.
  unfold eeg_wire_frame.
  change (le_split 2 idx)
    with [byte.of_Z idx; byte.of_Z (Z.shiftr idx 8)].
  cbn [app]. rewrite parse_eeg_packet_payload.
  destruct (stride_samples_wire xs ys Hlen Hxs Hys) as [-> ->].
  change [byte.of_Z idx; byte.of_Z (Z.shiftr idx 8)]
    with (le_split 2 idx).
  rewrite le_combine_split.
  change (Z.of_nat 2 * 8) with 16.
  rewrite Z.mod_small by exact Hidx. reflexivity.
Qed.

Lemma eeg_wire_roundtrip_witness :
  parse_eeg_packet (eeg_wire_frame Byte.x10 513 [1; -2] [-2147483648; 7])
  = Ok (Some {| index := 513; ch1 := [1; -2]; ch2 := [-2147483648; 7] |}).
Proof.
  apply eeg_wire_roundtrip.
  - lia.
  - reflexivity.
  - repeat constructor; lia.
  - repeat constructor; lia.
Defined.

(** ** Command sequences *)

(** One command with in-range fields on a connected client: it returns,
    keeps the session, and adds its frame to what was written. *)
Lemma send_command_step
      (feature_id pdu_type pdu_id : Z) (data : bytes) (w : world) :
  client (self w) <> None ->
  0 <= feature_id < 128 -> 0 <= pdu_type < 4 -> 0 <= pdu_id < 128 ->
  exists w',
    send_command feature_id pdu_type pdu_id data w = (Ok tt, w')
    /\ self w' = self w
    /\ written (trace w')
       = written (trace w)
         ++ [[byte.of_Z (Z.shiftr (feature_id * 512 + pdu_type * 128 + pdu_id)
                           8);
              byte.of_Z (feature_id * 512 + pdu_type * 128 + pdu_id)]
             ++ data].
Proof.
  intros Hc Hf Ht Hp.
  pose proof (pack_fields feature_id pdu_type pdu_id Ht Hp) as Hw.
  fold (header_word feature_id pdu_type pdu_id) in Hw.
  assert (Hfit : 0 <= header_word feature_id pdu_type pdu_id < 2 ^ 16)
    by (rewrite Hw; lia).
  pose proof (send_command_fits _ _ _ data w Hc Hfit) as Hrun.
  cbv zeta in Hrun. rewrite Hw in Hrun.
  eexists. split; [exact Hrun |]. split; [reflexivity |].
  cbn [trace]. rewrite !written_app. cbn. rewrite app_nil_r. reflexivity.
Qed.

(** X16.  [start_streaming] on a connected client returns, keeps the
    session and writes, in this order, the test-signal enable frame
    [02 01 01] (only when asked for the test signal) and the stream
    enable frame [02 00 01]. *)
Theorem start_streaming_writes :
  forall (use_test_signal : bool) (w : world),
    client (self w) <> None ->
    fst (start_streaming use_test_signal w) = Ok tt
    /\ self (snd (start_streaming use_test_signal w)) = self w
    /\ written (trace (snd (start_streaming use_test_signal w)))
       = written (trace w)
         ++ (if use_test_signal then [[Byte.x02; Byte.x01; Byte.x01]]
             else [])
         ++ [[Byte.x02; Byte.x00; Byte.x01]].
Proof.
  intros flag w Hc. unfold start_streaming, sleep.
  destruct flag; unfold bind, ret.
  - destruct (send_command_step SENSOR_CFG_FEATURE PDU_COMMAND
                CMD_TEST_SIGNAL_CTRL [Byte.x01] w Hc)
      as [w1 [R1 [S1 W1]]]; [cbv; split; congruence ..|].
    rewrite R1.
    destruct (send_command_step SENSOR_CFG_FEATURE PDU_COMMAND
                CMD_STREAM_CTRL [Byte.x01] w1)
      as [w2 [R2 [S2 W2]]];
      [rewrite S1; exact Hc | cbv; split; congruence ..|].
    rewrite R2. cbn [fst snd]. split; [reflexivity |].
    split; [congruence |]. rewrite W2, W1, <- app_assoc. reflexivity.
  - destruct (send_command_step SENSOR_CFG_FEATURE PDU_COMMAND
                CMD_STREAM_CTRL [Byte.x01] w Hc)
      as [w2 [R2 [S2 W2]]]; [cbv; split; congruence ..|].
    rewrite R2. cbn [fst snd]. split; [reflexivity |].
    split; [exact S2 |]. rewrite W2. reflexivity.
Qed.

Lemma start_streaming_writes_witness :
  written (trace (snd (start_streaming true w0)))
  = [[Byte.x02; Byte.x01; Byte.x01]; [Byte.x02; Byte.x00; Byte.x01]].
Proof.
  assert (Hc : client (self w0) <> None) by (cbn; discriminate).
  destruct (start_streaming_writes true w0 Hc) as [_ [_ H]].
  exact H.
Defined.

(** X17.  [stop_streaming] on a connected client returns, keeps the
    session and writes the stream disable frame [02 00 00] and then the
    test-signal disable frame [02 01 00]: the controls that
    [start_streaming] enables, in the opposite order, and the test signal
    whether or not it had been enabled. *)
Theorem stop_streaming_writes :
  forall w : world,
    client (self w) <> None ->
    fst (stop_streaming w) = Ok tt
    /\ self (snd (stop_streaming w)) = self w
    /\ written (trace (snd (stop_streaming w)))
       = written (trace w)
         ++ [[Byte.x02; Byte.x00; Byte.x00]; [Byte.x02; Byte.x01; Byte.x00]].
Proof.
  intros w Hc. unfold stop_streaming, bind.
  destruct (send_command_step SENSOR_CFG_FEATURE PDU_COMMAND
              CMD_STREAM_CTRL [Byte.x00] w Hc)
    as [w1 [R1 [S1 W1]]]; [cbv; split; congruence ..|].
  rewrite R1.
  destruct (send_command_step SENSOR_CFG_FEATURE PDU_COMMAND
              CMD_TEST_SIGNAL_CTRL [Byte.x00] w1)
    as [w2 [R2 [S2 W2]]];
    [rewrite S1; exact Hc | cbv; split; congruence ..|].
  rewrite R2. cbn [fst snd]. split; [reflexivity |].
  split; [congruence |]. rewrite W2, W1, <- app_assoc. reflexivity.
Qed.

Lemma stop_streaming_writes_witness :
  written (trace (snd (stop_streaming w0)))
  = [[Byte.x02; Byte.x00; Byte.x00]; [Byte.x02; Byte.x01; Byte.x00]].
Proof.
  assert (Hc : client (self w0) <> None) by (cbn; discriminate).
  destruct (stop_streaming_writes w0 Hc) as [_ [_ H]].
  exact H.
Defined.

(** X18.  The requests that close [scan_and_connect], on a connected
    client: the serial request [00 01], then the battery request [06 00].
    Their headers carry the feature and command id on which
    [parse_response] updates the session, with type PDU_COMMAND. *)
Theorem scan_and_connect_requests_writes :
  forall w : world,
    client (self w) <> None ->
    fst (scan_and_connect_requests w) = Ok tt
    /\ self (snd (scan_and_connect_requests w)) = self w
    /\ written (trace (snd (scan_and_connect_requests w)))
       = written (trace w) ++ [[Byte.x00; Byte.x01]; [Byte.x06; Byte.x00]]
    /\ header [Byte.x00; Byte.x01]
       = Some (CORE_FEATURE, PDU_COMMAND, CMD_GET_SERIAL)
    /\ header [Byte.x06; Byte.x00]
       = Some (BATTERY_FEATURE, PDU_COMMAND, CMD_GET_BATTERY).
Proof.
  intros w Hc. unfold scan_and_connect_requests, sleep, bind, ret.
  destruct (send_command_step CORE_FEATURE PDU_COMMAND
              CMD_GET_SERIAL [] w Hc)
    as [w1 [R1 [S1 W1]]]; [cbv; split; congruence ..|].
  rewrite R1.
  destruct (send_command_step BATTERY_FEATURE PDU_COMMAND
              CMD_GET_BATTERY [] w1)
    as [w2 [R2 [S2 W2]]];
    [rewrite S1; exact Hc | cbv; split; congruence ..|].
  rewrite R2. cbn [fst snd]. split; [reflexivity |].
  split; [congruence |]. split.
  - rewrite W2, W1, <- app_assoc. reflexivity.
  - split; vm_compute; reflexivity.
Qed.

Lemma scan_and_connect_requests_writes_witness :
  written (trace (snd (scan_and_connect_requests w0)))
  = [[Byte.x00; Byte.x01]; [Byte.x06; Byte.x00]].
Proof.
  assert (Hc : client (self w0) <> None) by (cbn; discriminate).
  destruct (scan_and_connect_requests_writes w0 Hc) as [_ [_ [H _]]].
  exact H.
Defined.

(** X19.  Without a connection handle every command sequence stops at
    its first command with [RuntimeError]; nothing is printed or written
    and the session is as before. *)
Theorem sequences_not_connected :
  forall (use_test_signal : bool) (w : world),
    client (self w) = None ->
    start_streaming use_test_signal w = (Raise RuntimeError, w)
    /\ stop_streaming w = (Raise RuntimeError, w)
    /\ scan_and_connect_requests w = (Raise RuntimeError, w).
Proof.
  intros flag w Hc. repeat split.
  - unfold start_streaming, sleep. destruct flag; unfold bind, ret.
    + rewrite send_command_not_connected by exact Hc. reflexivity.
    + apply send_command_not_connected. exact Hc.
  - unfold stop_streaming, bind.
    rewrite send_command_not_connected by exact Hc. reflexivity.
  - unfold scan_and_connect_requests, sleep, bind, ret.
    rewrite send_command_not_connected by exact Hc. reflexivity.
Qed.

Lemma sequences_not_connected_witness :
  start_streaming true
    {| self := {| client := None; serial_number := None;
                  battery_level := None |};
       trace := [] |}
  = (Raise RuntimeError,
     {| self := {| client := None; serial_number := None;
                   battery_level := None |};
        trace := [] |}).
Proof.
  apply (sequences_not_connected true). reflexivity.
Defined.

(** ** Choice of the device *)

Lemma str_prefix_spec (needle hay : str) :
  str_prefix needle hay = true <-> exists post, hay = needle ++ post.
Proof.
  revert hay. induction needle as [| a needle IH]; intros hay.
  - cbn. split; [intros _; exists hay; reflexivity | reflexivity].
  - destruct hay as [| b hay]; cbn [str_prefix].
    + split; [discriminate | intros [post Hpost]; discriminate].
    + rewrite andb_true_iff, Z.eqb_eq, IH. split.
      * intros [-> [post ->]]. exists post. reflexivity.
      * intros [post Hpost]. cbn [app] in Hpost.
        injection Hpost as -> ->. split; [reflexivity |].
        exists post. reflexivity.
Qed.

(** [str_in] is the substring test. *)
Lemma str_in_spec (needle hay : str) :
  str_in needle hay = true <-> exists pre post, hay = pre ++ needle ++ post.
Proof.
  induction hay as [| b hay IH].
  - cbn [str_in]. rewrite orb_false_r, str_prefix_spec. split.
    + intros [post Hpost]. exists [], post. exact Hpost.
    + intros [pre [post Hpost]].
      destruct pre; [| discriminate]. exists post. exact Hpost.
  - cbn [str_in]. rewrite orb_true_iff, str_prefix_spec, IH. split.
    + intros [[post Hpost] | [pre [post Hpost]]].
      * exists [], post. exact Hpost.
      * exists (b :: pre), post. rewrite Hpost. reflexivity.
    + intros [pre [post Hpost]]. destruct pre as [| c pre].
      * left. exists post. exact Hpost.
      * right. cbn [app] in Hpost. injection Hpost as _ Hpost.
        exists pre, post. exact Hpost.
Qed.

(** X20.  Which devices match.  A device matches exactly when it has a
    name in which ["QCC5181"] or ["NEOCORE"] occurs as a substring: a
    device without a name never matches, and the entry ["QCC5181-LE"] of
    the list adds nothing. *)
Theorem name_matches_iff :
  forall d : BLEDevice,
    name_matches d = true
    <-> exists s pre post,
        name d = Some s
        /\ (s = pre ++ [81; 67; 67; 53; 49; 56; 49] ++ post
            \/ s = pre ++ [78; 69; 79; 67; 79; 82; 69] ++ post).
Proof.
  intros d. unfold name_matches, TARGET_NAMES. cbn [existsb].
  rewrite orb_false_r, !orb_true_iff, !str_in_spec.
  destruct (name d) as [s |]; split.
  - intros [[pre [post H]] | [[pre [post H]] | [pre [post H]]]].
    + exists s, pre, post. split; [reflexivity | now left].
    + exists s, pre, ([45; 76; 69] ++ post).
      split; [reflexivity | left]. rewrite H. reflexivity.
    + exists s, pre, post. split; [reflexivity | now right].
  - intros [s' [pre [post [Hs [H | H]]]]]; injection Hs as <-.
    + left. exists pre, post. exact H.
    + right. right. exists pre, post. exact H.
  - intros [[pre [post H]] | [[pre [post H]] | [pre [post H]]]];
      destruct pre; discriminate.
  - intros [s' [pre [post [Hs _]]]]. discriminate.
Qed.

(** X21.  The device chosen is the first match in scan order: the call
    yields [d] exactly when [d] matches and no device reported before it
    does. *)
Theorem scan_and_connect_target_first :
  forall (devices : list BLEDevice) (d : BLEDevice),
    scan_and_connect_target devices = Ok d
    <-> exists before after,
        devices = before ++ d :: after
        /\ name_matches d = true
        /\ Forall (fun x => name_matches x = false) before.
Proof.
  intros devices d. unfold scan_and_connect_target.
  induction devices as [| x devices IH]; cbn [find_target].
  - split; [discriminate |].
    intros [before [after [H _]]]. destruct before; discriminate.
  - destruct (name_matches x) eqn:Hx.
    + split.
      * intros Heq. injection Heq as <-.
        exists [], devices. repeat split; [exact Hx | constructor].
      * intros [before [after [Hdev [Hd Hbefore]]]].
        destruct before as [| y before].
        -- cbn [app] in Hdev. injection Hdev as -> _. reflexivity.
        -- cbn [app] in Hdev. injection Hdev as -> _.
           inversion Hbefore; subst. congruence.
    + rewrite IH. split.
      * intros [before [after [-> [Hd Hbefore]]]].
        exists (x :: before), after.
        repeat split; [exact Hd | constructor; assumption].
      * intros [before [after [Hdev [Hd Hbefore]]]].
        destruct before as [| y before].
        -- cbn [app] in Hdev. injection Hdev as -> _. congruence.
        -- cbn [app] in Hdev. injection Hdev as -> ->.
           inversion Hbefore; subst.
           exists before, after. repeat split; assumption.
Qed.

(** X22.  The scan fails with [RuntimeError] exactly when no reported
    device matches; the empty scan is one such case. *)
Theorem scan_and_connect_target_none :
  forall devices : list BLEDevice,
    scan_and_connect_target devices = Raise RuntimeError
    <-> Forall (fun x => name_matches x = false) devices.
Proof.
  intros devices. unfold scan_and_connect_target.
  induction devices as [| x devices IH]; cbn [find_target].
  - split; [constructor | reflexivity].
  - destruct (name_matches x) eqn:Hx.
    + split; [discriminate |].
      intros Hall. inversion Hall; subst. congruence.
    + rewrite IH. split.
      * intros Hall. constructor; assumption.
      * intros Hall. inversion Hall; subst. assumption.
Qed.

Example target_among_three :
  scan_and_connect_target
    [{| name := None; address := [65] |};
     {| name := Some [109; 121; 32; 78; 69; 79; 67; 79; 82; 69; 45; 50];
        address := [66] |};
     {| name := Some [81; 67; 67; 53; 49; 56; 49]; address := [67] |}]
  = Ok {| name := Some [109; 121; 32; 78; 69; 79; 67; 79; 82; 69; 45; 50];
          address := [66] |}.
Proof. vm_compute. reflexivity. Qed.

Example target_case_sensitive :
  scan_and_connect_target
    [{| name := Some [110; 101; 111; 99; 111; 114; 101]; address := [65] |}]
  = Raise RuntimeError.
Proof. vm_compute. reflexivity. Qed.

(** ** The client in an arbitrary environment *)

Lemma print_in_printable (E : env) (l : line) (w : world) :
  printable E l = true -> print_in E l w = print l w.
Proof. intros H. unfold print_in. rewrite H. reflexivity. Qed.

Lemma print_in_unprintable (E : env) (l : line) (w : world) :
  printable E l = false -> print_in E l w = (Raise UnicodeEncodeError, w).
Proof. intros H. unfold print_in. rewrite H. reflexivity. Qed.



Section ResponseIn.

Variable E : env.
Variables (b0 b1 : byte) (payload : bytes).
Variables (f t p : Z).
Hypothesis Hhdr : header (b0 :: b1 :: payload) = Some (f, t, p).

Lemma parse_response_in_header (w : world) :
  parse_response_in E (b0 :: b1 :: payload) w
  = (print_in E (LResponse f t p (hex payload));;
     if t =? PDU_RESPONSE then
       (if (f =? CORE_FEATURE) && (p =? CMD_GET_SERIAL) then
          try_except
            (s <- lift (decode payload);; set_serial_number (Some s))
            UnicodeDecodeError
            (set_serial_number (Some (hex payload)));;
          me <- get_self;;
          print_in E (LSerial (serial_number me))
        else ret tt);;
       (if (f =? BATTERY_FEATURE) && (p =? CMD_GET_BATTERY)
           && truthy payload then
          b <- lift (getitem payload 0);;
          set_battery_level (Some b);;
          me <- get_self;;
          print_in E (LBattery (battery_level me))
        else ret tt)
     else ret tt) w.
Proof.
  unfold header in Hhdr. cbv zeta in Hhdr.
  assert (Hf : Z.shiftr (Z.lor (Z.shiftl (byte.unsigned b0) 8)
                           (byte.unsigned b1)) 9 = f) by congruence.
  assert (Ht : Z.land (Z.shiftr (Z.lor (Z.shiftl (byte.unsigned b0) 8)
                                   (byte.unsigned b1)) 7) 3 = t)
    by congruence.
  assert (Hp : Z.land (Z.lor (Z.shiftl (byte.unsigned b0) 8)
                         (byte.unsigned b1)) 127 = p) by congruence.
  unfold parse_response_in. cbn [length Nat.ltb Nat.leb].
  unfold getitem at 1 2. cbn [nth_error].
  unfold bind at 1, lift at 1. unfold bind at 1, lift at 1.
  cbv zeta. unfold slice_from. cbn [skipn].
  rewrite Hf, Ht, Hp. reflexivity.
Qed.

(** Off the serial path every printed line is ASCII, and the
    environment makes no difference. *)
Lemma parse_response_in_other (w : world) :
  (f, t, p) <> (CORE_FEATURE, PDU_RESPONSE, CMD_GET_SERIAL) ->
  parse_response_in E (b0 :: b1 :: payload) w
  = parse_response (b0 :: b1 :: payload) w.
Proof.
  intros Hne.
  rewrite parse_response_in_header, (parse_response_header _ _ _ _ _ _ Hhdr).
  unfold bind at 1. unfold bind at 4.
  rewrite print_in_printable by reflexivity.
  rewrite print_run.
  destruct (Z.eqb_spec t PDU_RESPONSE) as [Ht | Ht]; [| reflexivity].
  assert (Es : (f =? CORE_FEATURE) && (p =? CMD_GET_SERIAL) = false).
  { apply andb_false_iff.
    destruct (Z.eqb_spec f CORE_FEATURE); [| now left].
    destruct (Z.eqb_spec p CMD_GET_SERIAL); [| now right].
    subst. contradiction. }
  rewrite Es.
  destruct ((f =? BATTERY_FEATURE) && (p =? CMD_GET_BATTERY)
            && truthy payload); [| reflexivity].
  destruct payload as [| b more]; reflexivity.
Qed.

End ResponseIn.

(** On the serial path the number is stored first and printed after:
    the print decides how the call ends, not what is stored. *)
Lemma parse_response_in_serial
      (E : env) (b0 b1 : byte) (payload : bytes) (w : world) :
  header (b0 :: b1 :: payload)
  = Some (CORE_FEATURE, PDU_RESPONSE, CMD_GET_SERIAL) ->
  let text := match utf8_decode payload with
              | Some text => text
              | None => hex payload
              end in
  parse_response_in E (b0 :: b1 :: payload) w
  = (if printable E (LSerial (Some text)) then Ok tt
     else Raise UnicodeEncodeError,
     {| self := {| client := client (self w);
                   serial_number := Some text;
                   battery_level := battery_level (self w) |};
        trace := (trace w
                  ++ [Print (LResponse CORE_FEATURE PDU_RESPONSE
                               CMD_GET_SERIAL (hex payload))])
                 ++ (if printable E (LSerial (Some text))
                     then [Print (LSerial (Some text))] else []) |}).
Proof.
  intros Hhdr text. rewrite (parse_response_in_header _ _ _ _ _ _ _ Hhdr).
  unfold bind at 1. rewrite print_in_printable by reflexivity.
  rewrite print_run.
  change (PDU_RESPONSE =? PDU_RESPONSE) with true.
  change ((CORE_FEATURE =? CORE_FEATURE)
          && (CMD_GET_SERIAL =? CMD_GET_SERIAL)) with true.
  change ((CORE_FEATURE =? BATTERY_FEATURE)
          && (CMD_GET_SERIAL =? CMD_GET_BATTERY) && truthy payload)
    with false.
  cbv iota. unfold bind at 1. unfold bind at 1.
  rewrite serial_assignment. fold text.
  unfold set_serial_number, bind, get_self. cbn [self serial_number].
  unfold print_in.
  destruct (printable E (LSerial (Some text))).
  - reflexivity.
  - cbn. rewrite app_nil_r. reflexivity.
Qed.

Lemma handle_notification_in_generic
      (E : env) (sender : Z) (b : byte) (rest : bytes) (w : world) :
  byte.unsigned b <> EEG_PACKET_TYPE ->
  handle_notification_in E sender (b :: rest) w
  = parse_response_in E (b :: rest) w.
Proof.
  intros Hb. unfold handle_notification_in. cbn [truthy negb].
  unfold getitem. cbn [nth_error]. unfold bind at 1, lift at 1.
  apply Z.eqb_neq in Hb. rewrite Hb. reflexivity.
Qed.

(** The EEG report is ASCII: the environment makes no difference. *)
Lemma handle_notification_in_eeg
      (E : env) (sender : Z) (rest : bytes) (w : world) :
  handle_notification_in E sender (Byte.x04 :: rest) w
  = handle_notification sender (Byte.x04 :: rest) w.
Proof.
  unfold handle_notification_in, handle_notification. cbn [truthy negb].
  unfold getitem at 1 2. cbn [nth_error]. unfold bind at 1 3, lift at 1 3.
  change (byte.unsigned Byte.x04 =? EEG_PACKET_TYPE) with true. cbv iota.
  unfold bind, lift.
  destruct (parse_eeg_packet (Byte.x04 :: rest)) as [[pkt |] | e];
    reflexivity.
Qed.

Lemma printable_all (E : env) (l : line) :
  (forall c, stdout_encodes E c = true) -> printable E l = true.
Proof.
  intros Hall. unfold printable. apply forallb_forall. intros c _.
  rewrite Hall. apply orb_true_r.
Qed.


(** With a UTF-8 standard output and a link that acknowledges every
    write, the methods are those of the first part. *)
Lemma send_command_in_ideal
      (feature_id pdu_type pdu_id : Z) (data : bytes) (w : world) :
  send_command_in ideal_env feature_id pdu_type pdu_id data w
  = send_command feature_id pdu_type pdu_id data w.
Proof.
  unfold send_command_in, send_command, bind, get_self.
  destruct (client (self w)) as [c |]; [| reflexivity].
  unfold lift. destruct (to_bytes_2_big _) as [hdr | e]; reflexivity.
Qed.

Lemma parse_response_in_ideal (data : bytes) (w : world) :
  parse_response_in ideal_env data w = parse_response data w.
Proof.
  destruct data as [| b0 [| b1 payload]]; try reflexivity.
  destruct (header_some (b0 :: b1 :: payload)) as
      [c0 [c1 [pl [f [t [p [_ Hhdr]]]]]]]; [cbn; lia |].
  destruct (Z.eq_dec f CORE_FEATURE) as [Hf | Hf];
    [destruct (Z.eq_dec t PDU_RESPONSE) as [Ht | Ht];
     [destruct (Z.eq_dec p CMD_GET_SERIAL) as [Hp | Hp] |] |].
  - subst.
    rewrite (parse_response_in_serial _ _ _ _ _ Hhdr).
    rewrite (parse_response_serial _ _ _ _ Hhdr).
    rewrite printable_all by reflexivity. reflexivity.
  - apply (parse_response_in_other _ _ _ _ _ _ _ Hhdr). congruence.
  - apply (parse_response_in_other _ _ _ _ _ _ _ Hhdr). congruence.
  - apply (parse_response_in_other _ _ _ _ _ _ _ Hhdr). congruence.
Qed.

Lemma handle_notification_in_ideal (sender : Z) (data : bytes) (w : world) :
  handle_notification_in ideal_env sender data w
  = handle_notification sender data w.
Proof.
  destruct data as [| b0 rest]; [reflexivity |].
  destruct (Z.eq_dec (byte.unsigned b0) EEG_PACKET_TYPE) as [Heeg | Hgen].
  - assert (b0 = Byte.x04) as -> by (apply byte.unsigned_inj; exact Heeg).
    apply handle_notification_in_eeg.
  - rewrite (handle_notification_in_generic _ _ _ _ _ Hgen).
    rewrite (handle_notification_generic _ _ _ _ Hgen).
    apply parse_response_in_ideal.
Qed.

(** C7.  The claim fails on the code at a serial response whose text
    standard output cannot encode.  On the frame [01 01 c3 a9], a
    PDU_RESPONSE for CORE / GET_SERIAL whose payload is valid UTF-8 for
    U+00E9, with an ASCII standard output: the text is decoded and stored
    (line 116), and the print of line 119, outside the [try], raises
    [UnicodeEncodeError], which leaves [parse_response] and
    [handle_notification]. *)
Theorem serial_print_raises :
  header [Byte.x01; Byte.x01; Byte.xc3; Byte.xa9]
  = Some (CORE_FEATURE, PDU_RESPONSE, CMD_GET_SERIAL)
  /\ utf8_decode [Byte.xc3; Byte.xa9] = Some [233]
  /\ parse_response_in ascii_stdout_env
       [Byte.x01; Byte.x01; Byte.xc3; Byte.xa9] w0
     = (Raise UnicodeEncodeError,
        {| self := {| client := client (self w0);
                      serial_number := Some [233];
                      battery_level := None |};
           trace := [Print (LResponse 0 2 1 [99; 51; 97; 57])] |})
  /\ handle_notification_in ascii_stdout_env 0
       [Byte.x01; Byte.x01; Byte.xc3; Byte.xa9] w0
     = parse_response_in ascii_stdout_env
         [Byte.x01; Byte.x01; Byte.xc3; Byte.xa9] w0.
Proof. repeat split; vm_compute; reflexivity. Qed.





